(** * ZhiyanTrack site script: data loading and rendering pipeline

    A shallow embedding of [script.js]: the values that [response.json()]
    can hand to the script, the global [AppState], the four containers of
    the document, [DataLoader], [UIComponents] and the rendering half of
    [PageManager], followed by the properties of the pipeline. *)

From Stdlib Require Import String Ascii List ZArith Lia Bool.
From Stdlib Require Import DecimalString Permutation.
Import ListNotations.
Open Scope string_scope.
Set Warnings "-register-all".

(** ** Values *)

(** A JSON number reaches the script as an IEEE double.  The script never
    computes with payload numbers: it tests them for truthiness and
    interpolates them into templates.  A number is kept as these two
    observations ([num_truthy] is false for zero and NaN, [num_text] is
    what [String(n)] gives). *)
Record JSNumber : Type := mkNumber {
  num_truthy : bool;
  num_text : string
}.

(** What a payload, or a member of one, can be.  An object is the list of
    its own properties; a lookup takes the first binding of a key. *)
Inductive JSValue : Type :=
| JUndefined
| JNull
| JBool (b : bool)
| JNum (n : JSNumber)
| JStr (s : string)
| JArr (items : list JSValue)
| JObj (props : list (string * JSValue)).

Inductive JSError : Type :=
| TypeError
| SyntaxError
| NetworkError
| Error (message : string).

(** Outcome of evaluating an expression: a value or a thrown error. *)
Inductive Result (A : Type) : Type :=
| Ok (a : A)
| Throw (e : JSError).
Arguments Ok {A} a.
Arguments Throw {A} e.

Definition rbind {A B} (r : Result A) (k : A -> Result B) : Result B :=
  match r with
  | Ok a => k a
  | Throw e => Throw e
  end.

Declare Scope result_scope.
Delimit Scope result_scope with result.
Notation "'let?' x ':=' r 'in' k" := (rbind r (fun x => k))
  (at level 10, x name, r at level 100, k at level 200) : result_scope.
Open Scope result_scope.

Fixpoint traverse {A B} (f : A -> Result B) (l : list A) : Result (list B) :=
  match l with
  | [] => Ok []
  | x :: rest =>
      let? y := f x in
      let? ys := traverse f rest in
      Ok (y :: ys)
  end.

Fixpoint assoc (k : string) (props : list (string * JSValue)) : option JSValue :=
  match props with
  | [] => None
  | (k', v) :: rest => if String.eqb k k' then Some v else assoc k rest
  end.

(** [!v] is [negb (truthy v)]. *)
Definition truthy (v : JSValue) : bool :=
  match v with
  | JUndefined | JNull => false
  | JBool b => b
  | JNum n => num_truthy n
  | JStr s => negb (String.eqb s EmptyString)
  | JArr _ | JObj _ => true
  end.

Definition nullish (v : JSValue) : bool :=
  match v with
  | JUndefined | JNull => true
  | _ => false
  end.

(** [v.k] for the member names the script reads ([features],
    [technologies], [scenarios], [deliveryItems] and the fields of the
    records).  None of them names a built-in member of an array, a string,
    a number, a boolean or of [Object.prototype], so the read gives the
    own property of an object and [undefined] on anything else; on [null]
    and [undefined] it throws. *)
Definition get_member (v : JSValue) (k : string) : Result JSValue :=
  match v with
  | JUndefined | JNull => Throw TypeError
  | JObj props =>
      match assoc k props with
      | Some x => Ok x
      | None => Ok JUndefined
      end
  | _ => Ok JUndefined
  end.

Definition has_member (v : JSValue) (k : string) : bool :=
  match v with
  | JObj props =>
      match assoc k props with
      | Some _ => true
      | None => false
      end
  | _ => false
  end.

(** The receiver of [.map(...)] and of [.slice(0, n).map(...)]: an array.
    A string has [slice] but no [map]; every other value has neither (an own
    property of a parsed object is never callable), so the call throws. *)
Definition array_receiver (v : JSValue) : Result (list JSValue) :=
  match v with
  | JArr items => Ok items
  | _ => Throw TypeError
  end.

(** [${v}]: the string conversion of a template literal.  Array elements
    are joined with a comma, [null] and [undefined] elements as the empty
    string.  A parsed object converts through [Object.prototype.toString]
    unless it has an own [toString] property, which is not callable and
    leaves no conversion. *)
Fixpoint to_text (v : JSValue) : Result string :=
  match v with
  | JUndefined => Ok "undefined"
  | JNull => Ok "null"
  | JBool true => Ok "true"
  | JBool false => Ok "false"
  | JNum n => Ok (num_text n)
  | JStr s => Ok s
  | JArr items =>
      (fix join (l : list JSValue) : Result string :=
         match l with
         | [] => Ok EmptyString
         | x :: rest =>
             let? a := (if nullish x then Ok EmptyString else to_text x) in
             match rest with
             | [] => Ok a
             | _ :: _ => let? b := join rest in Ok (a ++ "," ++ b)
             end
         end) items
  | JObj props =>
      match assoc "toString" props with
      | Some _ => Throw TypeError
      | None => Ok "[object Object]"
      end
  end.

(** [${v.k}] *)
Definition member_text (v : JSValue) (k : string) : Result string :=
  let? x := get_member v k in to_text x.

(** ** Markup *)

Definition dquote : string := String (ascii_of_nat 34) EmptyString.
Definition newline : string := String (ascii_of_nat 10) EmptyString.

Fixpoint spaces (n : nat) : string :=
  match n with
  | O => EmptyString
  | S m => String (ascii_of_nat 32) (spaces m)
  end.

(** One line of a template literal: the line break, the indentation the
    source has, the text. *)
Definition ln (indent : nat) (text : string) : string :=
  newline ++ spaces indent ++ text.

(** [<tag class="c">] *)
Definition open_tag (tag c : string) : string :=
  "<" ++ tag ++ " class=" ++ dquote ++ c ++ dquote ++ ">".

Definition join_empty (l : list string) : string := String.concat EmptyString l.

Module UIComponents.

Definition feature_card (icon title description value : string) : string :=
  ln 12 (open_tag "div" "feature-card bg-white rounded-lg p-6 shadow-md") ++
  ln 16 (open_tag "div" "text-4xl mb-4" ++ icon ++ "</div>") ++
  ln 16 (open_tag "h3" "text-xl font-bold text-tech-blue mb-3" ++ title ++ "</h3>") ++
  ln 16 (open_tag "p" "text-gray-700 mb-4" ++ description ++ "</p>") ++
  ln 16 (open_tag "div" "text-sm text-accent-cyan font-semibold") ++
  ln 20 ("价值: " ++ value) ++
  ln 16 "</div>" ++
  ln 12 "</div>" ++
  ln 8 EmptyString.

Definition renderFeatureCard (feature : JSValue) : Result string :=
  let? icon := member_text feature "icon" in
  let? title := member_text feature "title" in
  let? description := member_text feature "description" in
  let? value := member_text feature "value" in
  Ok (feature_card icon title description value).

Definition tech_card (icon title description : string) : string :=
  ln 12 (open_tag "div" "tech-card bg-white rounded-lg p-6 shadow-md text-center") ++
  ln 16 (open_tag "div" "text-3xl mb-3" ++ icon ++ "</div>") ++
  ln 16 (open_tag "h4" "text-lg font-bold text-tech-blue mb-2" ++ title ++ "</h4>") ++
  ln 16 (open_tag "p" "text-sm text-gray-600" ++ description ++ "</p>") ++
  ln 12 "</div>" ++
  ln 8 EmptyString.

Definition renderTechCard (tech : JSValue) : Result string :=
  let? icon := member_text tech "icon" in
  let? title := member_text tech "title" in
  let? description := member_text tech "description" in
  Ok (tech_card icon title description).

Definition use_case_card (icon scenario painPoint solution benefit : string) : string :=
  ln 12 (open_tag "div" "bg-white rounded-lg p-6 shadow-md") ++
  ln 16 (open_tag "div" "text-4xl mb-4" ++ icon ++ "</div>") ++
  ln 16 (open_tag "h3" "text-xl font-bold text-tech-blue mb-3" ++ scenario ++ "</h3>") ++
  ln 16 (open_tag "div" "space-y-3") ++
  ln 20 "<div>" ++
  ln 24 (open_tag "h4" "font-semibold text-gray-800 mb-1" ++ "痛点:</h4>") ++
  ln 24 (open_tag "p" "text-gray-600 text-sm" ++ painPoint ++ "</p>") ++
  ln 20 "</div>" ++
  ln 20 "<div>" ++
  ln 24 (open_tag "h4" "font-semibold text-gray-800 mb-1" ++ "解决方案:</h4>") ++
  ln 24 (open_tag "p" "text-gray-600 text-sm" ++ solution ++ "</p>") ++
  ln 20 "</div>" ++
  ln 20 "<div>" ++
  ln 24 (open_tag "h4" "font-semibold text-accent-cyan mb-1" ++ "预期收益:</h4>") ++
  ln 24 (open_tag "p" "text-gray-600 text-sm" ++ benefit ++ "</p>") ++
  ln 20 "</div>" ++
  ln 16 "</div>" ++
  ln 12 "</div>" ++
  ln 8 EmptyString.

Definition renderUseCaseCard (useCase : JSValue) : Result string :=
  let? icon := member_text useCase "icon" in
  let? scenario := member_text useCase "scenario" in
  let? painPoint := member_text useCase "painPoint" in
  let? solution := member_text useCase "solution" in
  let? benefit := member_text useCase "benefit" in
  Ok (use_case_card icon scenario painPoint solution benefit).

Definition service_placeholder : string :=
  open_tag "p" "text-center py-8 text-gray-600" ++ "服务模式数据加载中...</p>".

Definition table_row (reportType frequency coreContent value : string) : string :=
  ln 12 (open_tag "tr" "hover:bg-gray-50 transition-colors") ++
  ln 16 (open_tag "td" "px-6 py-4 font-semibold text-tech-blue" ++ reportType ++ "</td>") ++
  ln 16 (open_tag "td" "px-6 py-4" ++ frequency ++ "</td>") ++
  ln 16 (open_tag "td" "px-6 py-4" ++ coreContent ++ "</td>") ++
  ln 16 (open_tag "td" "px-6 py-4" ++ value ++ "</td>") ++
  ln 12 "</tr>" ++
  ln 8 EmptyString.

Definition renderRow (item : JSValue) : Result string :=
  let? reportType := member_text item "reportType" in
  let? frequency := member_text item "frequency" in
  let? coreContent := member_text item "coreContent" in
  let? value := member_text item "value" in
  Ok (table_row reportType frequency coreContent value).

Definition table_head : string :=
  ln 12 (open_tag "table" "service-table w-full") ++
  ln 16 "<thead>" ++
  ln 20 (open_tag "tr" "bg-tech-blue text-white") ++
  ln 24 (open_tag "th" "px-6 py-4 text-left" ++ "报告类型</th>") ++
  ln 24 (open_tag "th" "px-6 py-4 text-left" ++ "频率</th>") ++
  ln 24 (open_tag "th" "px-6 py-4 text-left" ++ "核心内容</th>") ++
  ln 24 (open_tag "th" "px-6 py-4 text-left" ++ "价值</th>") ++
  ln 20 "</tr>" ++
  ln 16 "</thead>" ++
  ln 16 "<tbody>" ++
  ln 20 EmptyString.

Definition table_foot : string :=
  ln 16 "</tbody>" ++
  ln 12 "</table>" ++
  ln 8 EmptyString.

Definition service_table (tableRows : string) : string :=
  table_head ++ tableRows ++ table_foot.

Definition renderServiceTable (serviceModel : JSValue) : Result string :=
  if negb (truthy serviceModel) then Ok service_placeholder
  else
    let? deliveryItems := get_member serviceModel "deliveryItems" in
    if negb (truthy deliveryItems) then Ok service_placeholder
    else
      let? items := array_receiver deliveryItems in
      let? rows := traverse renderRow items in
      Ok (service_table (join_empty rows)).

End UIComponents.

(** ** State *)

Module AppState.

Record Data : Type := mkData {
  features : JSValue;
  techAdvantages : JSValue;
  useCases : JSValue;
  serviceModel : JSValue
}.

Record t : Type := mk {
  isLoading : bool;
  data : Data
}.

Definition initial : t :=
  {| isLoading := false;
     data := {| features := JNull; techAdvantages := JNull;
                useCases := JNull; serviceModel := JNull |} |}.

End AppState.

(** The four elements of the page the script writes to. *)
Inductive Container : Type :=
| FeaturesGrid
| TechPreview
| UseCasesGrid
| ServiceTableContainer.

Definition container_id (c : Container) : string :=
  match c with
  | FeaturesGrid => "features-grid"
  | TechPreview => "tech-preview"
  | UseCasesGrid => "use-cases-grid"
  | ServiceTableContainer => "service-table-container"
  end.

(** For each container, [None] when the page has no such element and
    otherwise the markup last assigned to its [innerHTML].  The four
    containers are taken as four separate elements, none inside another,
    and the markup is kept as text: what elements the browser makes of it
    is not modelled, so the record describes the page as long as no markup
    assigned carries an element with the id of a container. *)
Record Document : Type := mkDocument {
  features_grid : option string;
  tech_preview : option string;
  use_cases_grid : option string;
  service_table_container : option string
}.

Inductive LogEntry : Type :=
| ConsoleLog (message : string)
| ConsoleWarn (message : string)
| ConsoleError (message : string) (error : JSError).

Record Page : Type := mkPage {
  app : AppState.t;
  doc : Document;
  console : list LogEntry
}.

Definition getElementById (c : Container) (pg : Page) : option string :=
  match c with
  | FeaturesGrid => features_grid (doc pg)
  | TechPreview => tech_preview (doc pg)
  | UseCasesGrid => use_cases_grid (doc pg)
  | ServiceTableContainer => service_table_container (doc pg)
  end.

Definition set_container (c : Container) (x : option string) (d : Document) : Document :=
  match c with
  | FeaturesGrid =>
      mkDocument x (tech_preview d) (use_cases_grid d) (service_table_container d)
  | TechPreview =>
      mkDocument (features_grid d) x (use_cases_grid d) (service_table_container d)
  | UseCasesGrid =>
      mkDocument (features_grid d) (tech_preview d) x (service_table_container d)
  | ServiceTableContainer =>
      mkDocument (features_grid d) (tech_preview d) (use_cases_grid d) x
  end.

(** A computation of the script: it may change the page and it ends with a
    value or a thrown error; what it changed before throwing stays. *)
Definition M (A : Type) : Type := Page -> Result A * Page.

Definition ret {A} (a : A) : M A := fun pg => (Ok a, pg).

Definition bind {A B} (m : M A) (k : A -> M B) : M B :=
  fun pg =>
    match m pg with
    | (Ok a, pg') => k a pg'
    | (Throw e, pg') => (Throw e, pg')
    end.

Definition lift {A} (r : Result A) : M A := fun pg => (r, pg).

Definition try_catch {A} (body : M A) (handler : JSError -> M A) : M A :=
  fun pg =>
    match body pg with
    | (Ok a, pg') => (Ok a, pg')
    | (Throw e, pg') => handler e pg'
    end.

(** [try { body } finally { fin }]: [fin] runs on both ways out and the
    outcome of [body] stands unless [fin] itself throws. *)
Definition try_finally {A} (body : M A) (fin : M unit) : M A :=
  fun pg =>
    match body pg with
    | (r, pg') =>
        match fin pg' with
        | (Ok _, pg'') => (r, pg'')
        | (Throw e, pg'') => (Throw e, pg'')
        end
    end.

Declare Scope page_scope.
Delimit Scope page_scope with page.
Notation "x <- m ;; k" := (bind m (fun x => k))
  (at level 61, m at next level, right associativity) : page_scope.
Notation "m ;; k" := (bind m (fun _ => k))
  (at level 61, right associativity) : page_scope.
Open Scope page_scope.

Definition set_isLoading (b : bool) : M unit :=
  fun pg =>
    (Ok tt,
     mkPage (AppState.mk b (AppState.data (app pg))) (doc pg) (console pg)).

Definition set_data (d : AppState.Data) : M unit :=
  fun pg =>
    (Ok tt,
     mkPage (AppState.mk (AppState.isLoading (app pg)) d) (doc pg) (console pg)).

Definition read_data : M AppState.Data :=
  fun pg => (Ok (AppState.data (app pg)), pg).

Definition set_innerHTML (c : Container) (markup : string) : M unit :=
  fun pg =>
    (Ok tt, mkPage (app pg) (set_container c (Some markup) (doc pg)) (console pg)).

Definition log (entry : LogEntry) : M unit :=
  fun pg => (Ok tt, mkPage (app pg) (doc pg) (console pg ++ [entry])).

Module Utils.

Definition loading_markup : string :=
  ln 16 (open_tag "div" "loading-placeholder h-32 rounded-lg mb-4" ++ "</div>") ++
  ln 16 (open_tag "div" "loading-placeholder h-4 rounded mb-2" ++ "</div>") ++
  ln 16 (open_tag "div" "loading-placeholder h-4 rounded w-3/4" ++ "</div>") ++
  ln 12 EmptyString.

(** [showLoading(container)] with [container] the element of [c], or
    [null] when the page has none. *)
Definition showLoading (c : Container) : M unit :=
  fun pg =>
    match getElementById c pg with
    | Some _ => set_innerHTML c loading_markup pg
    | None => (Ok tt, pg)
    end.

End Utils.

(** ** DataLoader *)

(** What [fetch] resolves to: the status and what [response.json()]
    settles with.  A rejected [fetch] is a thrown [NetworkError]. *)
Record Response : Type := mkResponse {
  status : Z;
  json : Result JSValue
}.

Definition response_ok (r : Response) : bool :=
  (200 <=? status r)%Z && (status r <=? 299)%Z.

(** The network as the script meets it: what [fetch] resolves to for a
    path, and the order in which requests that are in flight together
    settle, given as their places in the order of the calls.  Places that
    are out of range or repeated are passed over, and the requests that
    are not listed settle last, in the order of the calls. *)
Record Fetch : Type := mkFetch {
  respond :> string -> Result Response;
  settle_order : list nat
}.

Definition status_text (z : Z) : string := NilZero.string_of_int (Z.to_int z).

(** A settled promise: fulfilled with a value or rejected with an error. *)
Definition Promise (A : Type) : Type := Result A.

(** A call of an [async] function together with the wait for the promise
    it returns: the call never throws and the outcome of the body is the
    settlement of the promise. *)
Definition async {A} (body : M A) : M (Promise A) :=
  fun pg => match body pg with (r, pg') => (Ok r, pg') end.

(** The order in which [n] requests settle: the listed places that are in
    range, each once, then the places that are left. *)
Definition schedule (order : list nat) (n : nat) : list nat :=
  let listed := nodup Nat.eq_dec (filter (fun i => (i <? n)%nat) order) in
  (listed ++ filter (fun i => negb (existsb (Nat.eqb i) listed)) (seq 0 n))%list.

(** The calls at the given places come to their end, in that order. *)
Fixpoint settle {A} (calls : list (M A)) (places : list nat) : M (list (nat * A)) :=
  match places with
  | [] => ret []
  | i :: rest =>
      match nth_error calls i with
      | Some call =>
          bind call (fun a =>
          bind (settle calls rest) (fun settled =>
          ret ((i, a) :: settled)))
      | None => settle calls rest
      end
  end.

Definition result_at {A} (settled : list (nat * A)) (i : nat) : list A :=
  match find (fun entry => Nat.eqb (fst entry) i) settled with
  | Some (_, a) => [a]
  | None => []
  end.

(** Calls that are in flight together: each comes to its end when the
    network has it settle, and the results are those of the calls in the
    order of the calls. *)
Definition in_flight {A} (order : list nat) (calls : list (M A)) : M (list A) :=
  bind (settle calls (schedule order (length calls))) (fun settled =>
  ret (flat_map (result_at settled) (seq 0 (length calls)))).

Definition await {A} (p : Promise A) : M A := lift p.

(** [Promise.all]: the values in order, or the first rejection. *)
Definition promise_all {A} (ps : list (Promise A)) : Promise (list A) :=
  traverse (fun p => p) ps.

Module DataLoader.

Definition loadJSON_body (fetch : Fetch) (filepath : string) : M JSValue :=
  try_catch
    (response <- await (fetch filepath) ;;
     if negb (response_ok response)
     then lift (Throw (Error ("Failed to load " ++ filepath ++ ": "
                                ++ status_text (status response))))
     else await (json response))
    (fun error =>
       log (ConsoleError ("Error loading data from " ++ filepath ++ ":") error) ;;
       ret JNull).

Definition loadJSON (fetch : Fetch) (filepath : string) : M (Promise JSValue) :=
  async (loadJSON_body fetch filepath).

Definition assign_features (v : JSValue) : M unit :=
  d <- read_data ;;
  set_data (AppState.mkData v (AppState.techAdvantages d)
              (AppState.useCases d) (AppState.serviceModel d)).

Definition assign_techAdvantages (v : JSValue) : M unit :=
  d <- read_data ;;
  set_data (AppState.mkData (AppState.features d) v
              (AppState.useCases d) (AppState.serviceModel d)).

Definition assign_useCases (v : JSValue) : M unit :=
  d <- read_data ;;
  set_data (AppState.mkData (AppState.features d) (AppState.techAdvantages d)
              v (AppState.serviceModel d)).

Definition assign_serviceModel (v : JSValue) : M unit :=
  d <- read_data ;;
  set_data (AppState.mkData (AppState.features d) (AppState.techAdvantages d)
              (AppState.useCases d) v).

(** [loadAllData] up to the end of its wait: the flag, the four calls,
    and the four loads settling in the order the network gives; each
    failing load writes its console line when it settles.  The promises
    are those of the four calls, in the order of the calls. *)
Definition loadAllData_issue (fetch : Fetch) : M (list (Promise JSValue)) :=
  set_isLoading true ;;
  in_flight (settle_order fetch)
    [loadJSON fetch "data/product-features.json";
     loadJSON fetch "data/tech-advantages.json";
     loadJSON fetch "data/use-cases.json";
     loadJSON fetch "data/service-model.json"].

(** [loadAllData] from its [await] on: the [try], [catch] and [finally]
    blocks.  The array pattern reads the positions 0 to 3 of the
    result. *)
Definition loadAllData_resume (loadPromises : list (Promise JSValue)) : M bool :=
  try_finally
    (try_catch
       (results <- await (promise_all loadPromises) ;;
        let features := nth 0 results JUndefined in
        let techAdvantages := nth 1 results JUndefined in
        let useCases := nth 2 results JUndefined in
        let serviceModel := nth 3 results JUndefined in
        assign_features features ;;
        assign_techAdvantages techAdvantages ;;
        assign_useCases useCases ;;
        assign_serviceModel serviceModel ;;
        ret true)
       (fun error =>
          log (ConsoleError "Error loading data:" error) ;;
          ret false))
    (set_isLoading false).

Definition loadAllData (fetch : Fetch) : M bool :=
  loadPromises <- loadAllData_issue fetch ;;
  loadAllData_resume loadPromises.

End DataLoader.

(** ** PageManager *)

Module PageManager.

(** The staggered animation that follows the assignment restyles the
    cards already injected; it assigns no markup and is left out. *)
Definition renderFeatures : M unit :=
  fun pg =>
    let container := getElementById FeaturesGrid pg in
    let features := AppState.features (AppState.data (app pg)) in
    match container with
    | None => (Ok tt, pg)
    | Some _ =>
        if truthy features then
          (list <- lift (get_member features "features") ;;
           if truthy list then
             cards <- lift (let? items := array_receiver list in
                            traverse UIComponents.renderFeatureCard (firstn 6 items)) ;;
             set_innerHTML FeaturesGrid (join_empty cards)
           else ret tt) pg
        else (Ok tt, pg)
    end.

Definition renderTechnologyPreview : M unit :=
  fun pg =>
    let container := getElementById TechPreview pg in
    let techData := AppState.techAdvantages (AppState.data (app pg)) in
    match container with
    | None => (Ok tt, pg)
    | Some _ =>
        if truthy techData then
          (list <- lift (get_member techData "technologies") ;;
           if truthy list then
             cards <- lift (let? items := array_receiver list in
                            traverse UIComponents.renderTechCard items) ;;
             set_innerHTML TechPreview (join_empty cards)
           else ret tt) pg
        else (Ok tt, pg)
    end.

Definition renderUseCases : M unit :=
  fun pg =>
    let container := getElementById UseCasesGrid pg in
    let useCasesData := AppState.useCases (AppState.data (app pg)) in
    match container with
    | None => (Ok tt, pg)
    | Some _ =>
        if truthy useCasesData then
          (list <- lift (get_member useCasesData "scenarios") ;;
           if truthy list then
             cards <- lift (let? items := array_receiver list in
                            traverse UIComponents.renderUseCaseCard (firstn 3 items)) ;;
             set_innerHTML UseCasesGrid (join_empty cards)
           else ret tt) pg
        else (Ok tt, pg)
    end.

Definition renderServiceModel : M unit :=
  fun pg =>
    let container := getElementById ServiceTableContainer pg in
    let serviceData := AppState.serviceModel (AppState.data (app pg)) in
    match container with
    | None => (Ok tt, pg)
    | Some _ =>
        (markup <- lift (UIComponents.renderServiceTable serviceData) ;;
         set_innerHTML ServiceTableContainer markup) pg
    end.

Definition fallback_warning : string :=
  "Rendering fallback content due to data loading failure".

Definition fallback_markup : string :=
  ln 16 (open_tag "div" "col-span-full text-center py-8") ++
  ln 20 (open_tag "p" "text-gray-600" ++ "功能介绍将在系统升级后呈现，敬请期待。</p>") ++
  ln 16 "</div>" ++
  ln 12 EmptyString.

Definition renderFallbackContent : M unit :=
  log (ConsoleWarn fallback_warning) ;;
  fun pg =>
    match getElementById FeaturesGrid pg with
    | Some _ => set_innerHTML FeaturesGrid fallback_markup pg
    | None => (Ok tt, pg)
    end.

(** The branch of [loadAndRenderContent] on what [loadAllData] gave. *)
Definition render_outcome (success : bool) : M unit :=
  if success then
    renderFeatures ;;
    renderTechnologyPreview ;;
    renderUseCases ;;
    renderServiceModel
  else renderFallbackContent.

Definition loadAndRenderContent (fetch : Fetch) : M unit :=
  Utils.showLoading FeaturesGrid ;;
  Utils.showLoading TechPreview ;;
  Utils.showLoading UseCasesGrid ;;
  Utils.showLoading ServiceTableContainer ;;
  success <- DataLoader.loadAllData fetch ;;
  render_outcome success.

End PageManager.

(** ** Timers and [Utils.debounce] *)

(** The clock and the timers of the host that one debounced function has
    set.  A timer is its handle, the time it is due and its callback; the
    callback is the closure [later], which is known by the arguments it
    holds. *)
Record Timers (A : Type) : Type := mkTimers {
  now : nat;
  next_handle : nat;
  pending : list (nat * (nat * A))
}.
Arguments mkTimers {A} now next_handle pending.
Arguments now {A} t.
Arguments next_handle {A} t.
Arguments pending {A} t.

Definition setTimeout {A} (callback : A) (delay : nat) (t : Timers A) :
    nat * Timers A :=
  (next_handle t,
   mkTimers (now t) (S (next_handle t))
     (pending t ++ [(next_handle t, (now t + delay, callback))])).

Definition without_handle {A} (h : nat) (l : list (nat * (nat * A))) :
    list (nat * (nat * A)) :=
  filter (fun entry => negb (Nat.eqb (fst entry) h)) l.

(** [clearTimeout(handle)]; with [undefined] it does nothing. *)
Definition clearTimeout {A} (handle : option nat) (t : Timers A) : Timers A :=
  match handle with
  | None => t
  | Some h => mkTimers (now t) (next_handle t) (without_handle h (pending t))
  end.

Definition find_timer {A} (h : nat) (t : Timers A) : option (nat * A) :=
  match find (fun entry => Nat.eqb (fst entry) h) (pending t) with
  | Some (_, timer) => Some timer
  | None => None
  end.

Module Debounce.

(** What [debounce(func, wait)] returns: the variable [timeout] of the
    closure, the timers, and the calls [func] has received, each with the
    time of the call. *)
Record State (A : Type) : Type := mkState {
  timeout : option nat;
  timers : Timers A;
  invoked : list (nat * A)
}.
Arguments mkState {A} timeout timers invoked.
Arguments timeout {A} s.
Arguments timers {A} s.
Arguments invoked {A} s.

Definition debounce {A} (host : Timers A) : State A :=
  mkState None host [].

Definition later {A} (args : A) (s : State A) : State A :=
  let cleared := clearTimeout (timeout s) (timers s) in
  mkState (timeout s) cleared (invoked s ++ [(now cleared, args)]).

Definition executedFunction {A} (wait : nat) (args : A) (s : State A) : State A :=
  let cleared := clearTimeout (timeout s) (timers s) in
  match setTimeout args wait cleared with
  | (handle, set) => mkState (Some handle) set (invoked s)
  end.

(** What happens around the debounced function: it is called, time
    passes, the host runs a timer.  The host runs a timer once, when it is
    waiting and due, and takes it off its list first. *)
Inductive Event (A : Type) : Type :=
| Call (args : A)
| Advance (elapsed : nat)
| Fire (handle : nat).
Arguments Call {A} args.
Arguments Advance {A} elapsed.
Arguments Fire {A} handle.

Definition step {A} (wait : nat) (s : State A) (ev : Event A) : State A :=
  match ev with
  | Call args => executedFunction wait args s
  | Advance elapsed =>
      mkState (timeout s)
        (mkTimers (now (timers s) + elapsed) (next_handle (timers s))
           (pending (timers s)))
        (invoked s)
  | Fire handle =>
      match find_timer handle (timers s) with
      | Some (due, args) =>
          if (due <=? now (timers s))%nat then
            later args
              (mkState (timeout s)
                 (mkTimers (now (timers s)) (next_handle (timers s))
                    (without_handle handle (pending (timers s))))
                 (invoked s))
          else s
      | None => s
      end
  end.

Definition run {A} (wait : nat) (events : list (Event A)) (s : State A) : State A :=
  fold_left (step wait) events s.

End Debounce.

(** ** Class lists *)

(** The [classList] of an element: its tokens, each once, in order. *)
Definition ClassList : Type := list string.

Definition contains (token : string) (cl : ClassList) : bool :=
  existsb (String.eqb token) cl.

Definition add_token (cl : ClassList) (token : string) : ClassList :=
  if contains token cl then cl else (cl ++ [token])%list.

Definition remove_token (cl : ClassList) (token : string) : ClassList :=
  filter (fun t => negb (String.eqb t token)) cl.

(** [classList.add(...tokens)] and [classList.remove(...tokens)] *)
Definition class_add (tokens : list string) (cl : ClassList) : ClassList :=
  fold_left add_token tokens cl.

Definition class_remove (tokens : list string) (cl : ClassList) : ClassList :=
  fold_left remove_token tokens cl.

(** [classList.toggle(token)] *)
Definition class_toggle (token : string) (cl : ClassList) : ClassList :=
  if contains token cl then remove_token cl token else (cl ++ [token])%list.

(** ** Navigation *)

(** An anchor whose [href] starts with [#]: the attribute, whether the
    anchor is inside a [nav] element, its classes. *)
Record Link : Type := mkLink {
  href : string;
  in_nav : bool;
  link_classes : ClassList
}.

(** The part of the document the navigation works on: whether the button
    [mobile-menu-btn] is there, the classes of [mobile-menu] when it is
    there, the anchors [a[href^="#"]] in document order, the ids that
    elements of the page carry, and the elements [scrollIntoView] has been
    called on, by id. *)
Record NavDom : Type := mkNavDom {
  mobile_menu_btn : bool;
  mobile_menu : option ClassList;
  links : list Link;
  element_ids : list string;
  scrolled_to : list string
}.

(** [document.getElementById(id)] as a test; no element has the empty
    id. *)
Definition has_element (id : string) (d : NavDom) : bool :=
  negb (String.eqb id EmptyString) && existsb (String.eqb id) (element_ids d).

(** The text of an id that stands for itself between the quotes of an
    attribute selector: no quote, backslash, line break or null
    character. *)
Definition plain_char (c : ascii) : bool :=
  negb (existsb (Nat.eqb (nat_of_ascii c)) [0; 10; 12; 13; 34; 92]).

Fixpoint plain (s : string) : bool :=
  match s with
  | EmptyString => true
  | String c rest => plain_char c && plain rest
  end.

(** What [document.querySelector] finds first: nothing, one of the
    anchors [a[href^="#"]] by its place, the mobile menu, or an element
    whose classes are not followed here. *)
Inductive Found : Type :=
| NoElement
| AnchorAt (place : nat)
| TheMenu
| Untracked.

(** An entry the intersection observer reports: [isIntersecting], the
    [id] attribute of the target, and what the browser answers when the
    callback asks [document.querySelector] for [nav a[href="#id"]] with
    that id put into the selector as it is: an element, or a thrown error
    when it takes the text for no selector. *)
Record Entry : Type := mkEntry {
  isIntersecting : bool;
  target_id : string;
  active_link : Result Found
}.

Module UtilsScroll.

(** [Utils.smoothScrollTo(elementId)] *)
Definition smoothScrollTo (elementId : string) (d : NavDom) : NavDom :=
  if has_element elementId d
  then mkNavDom (mobile_menu_btn d) (mobile_menu d) (links d) (element_ids d)
         (scrolled_to d ++ [elementId])
  else d.

End UtilsScroll.

Module Navigation.

(** The click listener of [setupMobileMenu]; it is there when the button
    and the menu both are. *)
Definition mobile_menu_click (d : NavDom) : NavDom :=
  match mobile_menu d with
  | Some cl =>
      if mobile_menu_btn d
      then mkNavDom (mobile_menu_btn d) (Some (class_toggle "hidden" cl))
             (links d) (element_ids d) (scrolled_to d)
      else d
  | None => d
  end.

(** [href.substring(1)] *)
Definition target_of (h : string) : string :=
  match h with
  | EmptyString => EmptyString
  | String _ rest => rest
  end.

(** The click listener [setupSmoothScrolling] puts on every anchor. *)
Definition link_click (link : Link) (d : NavDom) : NavDom :=
  let targetId := target_of (href link) in
  let d1 := UtilsScroll.smoothScrollTo targetId d in
  match mobile_menu d1 with
  | Some cl =>
      if negb (contains "hidden" cl)
      then mkNavDom (mobile_menu_btn d1) (Some (class_add ["hidden"] cl))
             (links d1) (element_ids d1) (scrolled_to d1)
      else d1
  | None => d1
  end.

Definition deactivate (link : Link) : Link :=
  if in_nav link
  then mkLink (href link) (in_nav link)
         (class_add ["text-gray-300"]
            (class_remove ["text-white"; "bg-white/10"] (link_classes link)))
  else link.

Definition activate (link : Link) : Link :=
  mkLink (href link) (in_nav link)
    (class_add ["text-white"; "bg-white/10"]
       (class_remove ["text-gray-300"] (link_classes link))).

Fixpoint activate_at (place : nat) (l : list Link) : list Link :=
  match l, place with
  | [], _ => []
  | link :: rest, O => activate link :: rest
  | link :: rest, S before => link :: activate_at before rest
  end.

(** The observer callback of [setupActiveNavigation] on one entry: the
    anchors in a [nav] are deactivated, then the element that
    [querySelector] finds is activated; an error of [querySelector] leaves
    from the callback after the first of the two. *)
Definition observe_entry (d : NavDom) (entry : Entry) : Result unit * NavDom :=
  if isIntersecting entry then
    let deactivated := map deactivate (links d) in
    match active_link entry with
    | Throw e =>
        (Throw e,
         mkNavDom (mobile_menu_btn d) (mobile_menu d) deactivated
           (element_ids d) (scrolled_to d))
    | Ok (AnchorAt place) =>
        (Ok tt,
         mkNavDom (mobile_menu_btn d) (mobile_menu d)
           (activate_at place deactivated) (element_ids d) (scrolled_to d))
    | Ok TheMenu =>
        (Ok tt,
         mkNavDom (mobile_menu_btn d)
           (option_map
              (fun cl => class_add ["text-white"; "bg-white/10"]
                           (class_remove ["text-gray-300"] cl))
              (mobile_menu d))
           deactivated (element_ids d) (scrolled_to d))
    | Ok NoElement | Ok Untracked =>
        (Ok tt,
         mkNavDom (mobile_menu_btn d) (mobile_menu d) deactivated
           (element_ids d) (scrolled_to d))
    end
  else (Ok tt, d).

(** The callback on a batch: [entries.forEach], which an error ends. *)
Fixpoint observe_entries (entries : list Entry) (d : NavDom) :
    Result unit * NavDom :=
  match entries with
  | [] => (Ok tt, d)
  | entry :: rest =>
      match observe_entry d entry with
      | (Ok _, d') => observe_entries rest d'
      | (Throw e, d') => (Throw e, d')
      end
  end.

End Navigation.

(** ** The whole page *)

(** How many listeners and observers the script has registered, by
    kind. *)
Record Listeners : Type := mkListeners {
  menu_click : nat;
  anchor_click : nat;
  section_observer : nat;
  resize : nat;
  fade_observer : nat
}.

Record Site : Type := mkSite {
  page : Page;
  nav : NavDom;
  listeners : Listeners
}.

Definition SiteM (A : Type) : Type := Site -> Result A * Site.

Definition site_bind {A B} (m : SiteM A) (k : A -> SiteM B) : SiteM B :=
  fun s =>
    match m s with
    | (Ok a, s') => k a s'
    | (Throw e, s') => (Throw e, s')
    end.

(** A computation on the data and the containers, run in the site. *)
Definition on_page {A} (m : M A) : SiteM A :=
  fun s =>
    match m (page s) with
    | (r, pg) => (r, mkSite pg (nav s) (listeners s))
    end.

Definition register (f : Listeners -> Listeners) : SiteM unit :=
  fun s => (Ok tt, mkSite (page s) (nav s) (f (listeners s))).

Module NavigationSetup.

Definition setupMobileMenu : SiteM unit :=
  fun s =>
    match mobile_menu (nav s) with
    | Some _ =>
        if mobile_menu_btn (nav s)
        then register
               (fun l => mkListeners (S (menu_click l)) (anchor_click l)
                           (section_observer l) (resize l) (fade_observer l)) s
        else (Ok tt, s)
    | None => (Ok tt, s)
    end.

(** [link.addEventListener('click', ...)] on one anchor. *)
Definition add_anchor_listener (l : Listeners) (link : Link) : Listeners :=
  mkListeners (menu_click l) (S (anchor_click l))
    (section_observer l) (resize l) (fade_observer l).

(** [querySelectorAll('a[href^="#"]').forEach]: one listener on every
    anchor of the page. *)
Definition setupSmoothScrolling : SiteM unit :=
  fun s =>
    register (fun l => fold_left add_anchor_listener (links (nav s)) l) s.

Definition setupActiveNavigation : SiteM unit :=
  register
    (fun l => mkListeners (menu_click l) (anchor_click l)
                (S (section_observer l)) (resize l) (fade_observer l)).

Definition init : SiteM unit :=
  site_bind setupMobileMenu (fun _ =>
  site_bind setupSmoothScrolling (fun _ =>
  setupActiveNavigation)).

End NavigationSetup.

Module PageInit.

Definition setupResponsiveFeatures : SiteM unit :=
  register
    (fun l => mkListeners (menu_click l) (anchor_click l)
                (section_observer l) (S (resize l)) (fade_observer l)).

Definition setupScrollAnimations : SiteM unit :=
  register
    (fun l => mkListeners (menu_click l) (anchor_click l)
                (section_observer l) (resize l) (S (fade_observer l))).

Definition init (fetch : Fetch) : SiteM unit :=
  site_bind (on_page (log (ConsoleLog "Initializing ZhiyanTrack website..."))) (fun _ =>
  site_bind NavigationSetup.init (fun _ =>
  site_bind (on_page (PageManager.loadAndRenderContent fetch)) (fun _ =>
  site_bind setupResponsiveFeatures (fun _ =>
  site_bind setupScrollAnimations (fun _ =>
  on_page (log (ConsoleLog "Website initialization complete"))))))).

End PageInit.

(** * Vocabulary of the properties *)

Definition primitive (v : JSValue) : bool :=
  match v with
  | JArr _ | JObj _ => false
  | _ => true
  end.

(** A record: an object whose members are text, numbers, booleans or
    [null]. *)
Definition is_record (v : JSValue) : bool :=
  match v with
  | JObj props => forallb (fun kv => primitive (snd kv)) props
  | _ => false
  end.

(** [needle] is somewhere in [hay]. *)
Fixpoint occurs (needle hay : string) : bool :=
  String.prefix needle hay ||
  match hay with
  | EmptyString => false
  | String _ rest => occurs needle rest
  end.

Definition sample_feature_props : list (string * JSValue) :=
  [("icon", JStr "🔧"); ("title", JStr "T");
   ("description", JStr "D"); ("value", JStr "V")].

Definition sample_item : JSValue :=
  JObj [("reportType", JStr "A"); ("frequency", JStr "B");
        ("coreContent", JStr "C"); ("value", JStr "D")].

Definition sample_service_model : JSValue :=
  JObj [("deliveryItems", JArr [sample_item])].

(** What [AppState.data] is to hold for a resource: the parsed body when
    the fetch succeeded with a success status and a body that parses,
    [null] in the three other cases. *)
Inductive resource_payload (fetch : Fetch) (path : string) : JSValue -> Prop :=
| payload_loaded r v :
    fetch path = Ok r -> response_ok r = true -> json r = Ok v ->
    resource_payload fetch path v
| payload_bad_status r :
    fetch path = Ok r -> response_ok r = false ->
    resource_payload fetch path JNull
| payload_network_error e :
    fetch path = Throw e ->
    resource_payload fetch path JNull
| payload_parse_error r e :
    fetch path = Ok r -> response_ok r = true -> json r = Throw e ->
    resource_payload fetch path JNull.

Definition is_console_error (entry : LogEntry) : Prop :=
  exists message error, entry = ConsoleError message error.

(** The guard of the three card sections: [payload && payload.k]. *)
Definition truthy_member (v : JSValue) (k : string) : bool :=
  match get_member v k with
  | Ok x => truthy x
  | Throw _ => false
  end.

Definition with_markup (markup : string) (container : option string) : option string :=
  match container with
  | Some _ => Some markup
  | None => None
  end.

Definition null_data : AppState.Data :=
  AppState.mkData JNull JNull JNull JNull.

Definition reject_all : Fetch := mkFetch (fun _ => Throw NetworkError) [].

(** A page with the four containers, before the script has run. *)
Definition page_at_load : Page :=
  mkPage AppState.initial
    (mkDocument (Some EmptyString) (Some EmptyString)
       (Some EmptyString) (Some EmptyString))
    [].

Definition features_payload (pg : Page) : JSValue :=
  AppState.features (AppState.data (app pg)).

Definition techAdvantages_payload (pg : Page) : JSValue :=
  AppState.techAdvantages (AppState.data (app pg)).

Definition useCases_payload (pg : Page) : JSValue :=
  AppState.useCases (AppState.data (app pg)).

Definition serviceModel_payload (pg : Page) : JSValue :=
  AppState.serviceModel (AppState.data (app pg)).

Definition sample_record (name : string) : JSValue :=
  JObj [("icon", JStr "*"); ("title", JStr name); ("description", JStr name);
        ("value", JStr name); ("scenario", JStr name);
        ("painPoint", JStr name); ("solution", JStr name);
        ("benefit", JStr name)].

Definition ten_records : list JSValue :=
  map sample_record ["a"; "b"; "c"; "d"; "e"; "f"; "g"; "h"; "i"; "j"].

(** A page after a load that brought ten features and ten scenarios. *)
Definition page_with_ten : Page :=
  mkPage
    (AppState.mk false
       (AppState.mkData (JObj [("features", JArr ten_records)]) JNull
          (JObj [("scenarios", JArr ten_records)]) JNull))
    (mkDocument (Some Utils.loading_markup) (Some Utils.loading_markup)
       (Some Utils.loading_markup) (Some Utils.loading_markup))
    [].

(** A page after a load in which every resource failed or came without
    the member its section reads. *)
Definition page_with_gaps : Page :=
  mkPage
    (AppState.mk false
       (AppState.mkData JNull (JObj [("items", JArr [])])
          (JArr [sample_item]) (JObj [])))
    (mkDocument (Some Utils.loading_markup) (Some Utils.loading_markup)
       (Some Utils.loading_markup) (Some Utils.loading_markup))
    [].

(** A page after a load in which the three card resources were bare
    arrays of records. *)
Definition page_with_bare_arrays : Page :=
  mkPage
    (AppState.mk false
       (AppState.mkData (JArr ten_records) (JArr ten_records)
          (JArr ten_records) JNull))
    (mkDocument (Some Utils.loading_markup) (Some Utils.loading_markup)
       (Some Utils.loading_markup) (Some Utils.loading_markup))
    [].

(** The four resources, in the order [loadAllData] asks for them. *)
Definition data_paths : list string :=
  ["data/product-features.json"; "data/tech-advantages.json";
   "data/use-cases.json"; "data/service-model.json"].

(** The error [loadJSON] catches for a resource, if any. *)
Definition resource_failure (fetch : Fetch) (path : string) : option JSError :=
  match fetch path with
  | Throw e => Some e
  | Ok r =>
      if response_ok r then
        match json r with
        | Ok _ => None
        | Throw e => Some e
        end
      else Some (Error ("Failed to load " ++ path ++ ": " ++ status_text (status r)))
  end.

Definition error_lines (fetch : Fetch) (paths : list string) : list LogEntry :=
  flat_map
    (fun path =>
       match resource_failure fetch path with
       | Some e => [ConsoleError ("Error loading data from " ++ path ++ ":") e]
       | None => []
       end)
    paths.

Definition is_array (v : JSValue) : bool :=
  match v with
  | JArr _ => true
  | _ => false
  end.

Definition present (container : option string) : bool :=
  match container with
  | Some _ => true
  | None => false
  end.

(** The same containers exist in both documents. *)
Definition same_elements (d d' : Document) : Prop :=
  present (features_grid d') = present (features_grid d) /\
  present (tech_preview d') = present (tech_preview d) /\
  present (use_cases_grid d') = present (use_cases_grid d) /\
  present (service_table_container d') = present (service_table_container d).


(** A page after a load whose features came as text under the right key. *)
Definition page_with_text_features : Page :=
  mkPage
    (AppState.mk false
       (AppState.mkData (JObj [("features", JStr "abc")]) JNull JNull JNull))
    (mkDocument (Some Utils.loading_markup) (Some Utils.loading_markup)
       (Some Utils.loading_markup) (Some Utils.loading_markup))
    [].

(** The text of an array: its elements joined by commas. *)
Fixpoint join_text (l : list JSValue) : Result string :=
  match l with
  | [] => Ok EmptyString
  | x :: rest =>
      let? a := (if nullish x then Ok EmptyString else to_text x) in
      match rest with
      | [] => Ok a
      | _ :: _ => let? b := join_text rest in Ok (a ++ "," ++ b)
      end
  end.

(** Induction on values that goes through arrays and objects. *)
Definition JSValue_nested_ind (P : JSValue -> Prop)
    (Hundefined : P JUndefined) (Hnull : P JNull)
    (Hbool : forall b, P (JBool b)) (Hnum : forall n, P (JNum n))
    (Hstr : forall s, P (JStr s))
    (Harr : forall items, Forall P items -> P (JArr items))
    (Hobj : forall props, Forall (fun kv => P (snd kv)) props -> P (JObj props)) :
  forall v, P v :=
  fix go (v : JSValue) : P v :=
    match v with
    | JUndefined => Hundefined
    | JNull => Hnull
    | JBool b => Hbool b
    | JNum n => Hnum n
    | JStr s => Hstr s
    | JArr items =>
        Harr items
          ((fix all (l : list JSValue) : Forall P l :=
              match l with
              | [] => Forall_nil P
              | x :: rest => Forall_cons x (go x) (all rest)
              end) items)
    | JObj props =>
        Hobj props
          ((fix all (l : list (string * JSValue)) :
              Forall (fun kv => P (snd kv)) l :=
              match l with
              | [] => Forall_nil _
              | kv :: rest => Forall_cons kv (go (snd kv)) (all rest)
              end) props)
    end.

(** A render step, whatever the payload: it leaves the page, or throws a
    [TypeError] and leaves the page, or puts markup in its container. *)
Definition card_step (c : Container) (m : M unit) : Prop :=
  forall pg,
    (m pg = (Ok tt, pg) \/ m pg = (Throw TypeError, pg)) \/
    exists old markup,
      getElementById c pg = Some old /\
      m pg = (Ok tt,
              mkPage (app pg) (set_container c (Some markup) (doc pg))
                (console pg)).

(** The state and the console are as before and no container appeared or
    went. *)
Definition markup_only (pg pg' : Page) : Prop :=
  app pg' = app pg /\ console pg' = console pg /\
  same_elements (doc pg) (doc pg').

(** What [loadJSON] resolves to for a resource. *)
Definition resource_value (fetch : Fetch) (path : string) : JSValue :=
  match fetch path with
  | Throw _ => JNull
  | Ok r =>
      if response_ok r then
        match json r with
        | Ok v => v
        | Throw _ => JNull
        end
      else JNull
  end.

Definition loaded_data (fetch : Fetch) : AppState.Data :=
  AppState.mkData
    (resource_value fetch "data/product-features.json")
    (resource_value fetch "data/tech-advantages.json")
    (resource_value fetch "data/use-cases.json")
    (resource_value fetch "data/service-model.json").

Definition fails (fetch : Fetch) (path : string) : bool :=
  match resource_failure fetch path with
  | Some _ => true
  | None => false
  end.

(** A server that answers every path with the same status and body. *)
Definition answer_all (code : Z) (body : JSValue) : Fetch :=
  mkFetch (fun _ => Ok (mkResponse code (Ok body))) [2; 0].



(** A server that answers the features with "not found" and the three
    other resources with an empty object. *)
Definition features_not_found : Fetch :=
  mkFetch
    (fun path =>
       if String.eqb path "data/product-features.json"
       then Ok (mkResponse 404 (Ok (JObj [])))
       else Ok (mkResponse 200 (Ok (JObj []))))
    [3; 1; 0; 2].

Definition feature_members : list string :=
  ["icon"; "title"; "description"; "value"].

Definition tech_members : list string := ["icon"; "title"; "description"].

Definition use_case_members : list string :=
  ["icon"; "scenario"; "painPoint"; "solution"; "benefit"].

Definition row_members : list string :=
  ["reportType"; "frequency"; "coreContent"; "value"].

(** A feature whose title is markup. *)
Definition feature_with_markup_title : JSValue :=
  JObj [("icon", JStr "*"); ("title", JStr "<b>&amp;</b><script>");
        ("description", JStr "d"); ("value", JStr "v")].

(** [l1] is [l2] with some elements left out. *)
Inductive subsequence {A : Type} : list A -> list A -> Prop :=
| subsequence_nil : subsequence [] []
| subsequence_skip x l1 l2 : subsequence l1 l2 -> subsequence l1 (x :: l2)
| subsequence_take x l1 l2 : subsequence l1 l2 -> subsequence (x :: l1) (x :: l2).

Module DebounceSpec.
Import Debounce.

(** The arguments of the calls among the events, in order. *)
Definition calls_of {A} (events : list (Event A)) : list A :=
  flat_map (fun ev => match ev with Call args => [args] | _ => [] end) events.

(** The time that passes during the events. *)
Definition elapsed_in {A} (events : list (Event A)) : nat :=
  list_sum (map (fun ev => match ev with Advance t => t | _ => 0 end) events).

(** Every waiting timer is the one the closure remembers. *)
Definition owns_timers {A} (s : State A) : Prop :=
  forall entry, In entry (pending (timers s)) -> timeout s = Some (fst entry).

(** The waiting timer, if any, holds the arguments of the last call, and
    what [func] has received is a subsequence of the earlier calls. *)
Definition trailing {A} (s : State A) (calls : list A) : Prop :=
  (pending (timers s) = [] /\ subsequence (map snd (invoked s)) calls) \/
  (exists h due args earlier,
      pending (timers s) = [(h, (due, args))] /\
      calls = (earlier ++ [args])%list /\
      subsequence (map snd (invoked s)) earlier).

End DebounceSpec.

(** A host that has set no timer yet. *)
Definition idle_host : Timers string := mkTimers 0 1 [].

Module NavigationSpec.

Fixpoint clicks (n : nat) (d : NavDom) : NavDom :=
  match n with
  | O => d
  | S m => Navigation.mobile_menu_click (clicks m d)
  end.

Definition is_active (cl : ClassList) : bool :=
  contains "text-white" cl && contains "bg-white/10" cl
  && negb (contains "text-gray-300" cl).

Definition is_inactive (cl : ClassList) : bool :=
  contains "text-gray-300" cl && negb (contains "text-white" cl)
  && negb (contains "bg-white/10" cl).

Definition state_token (t : string) : bool :=
  existsb (String.eqb t) ["text-white"; "bg-white/10"; "text-gray-300"].

(** The place of the first anchor in a [nav] with the given [href]. *)
Fixpoint first_match (h : string) (l : list Link) : option nat :=
  match l with
  | [] => None
  | link :: rest =>
      if in_nav link && String.eqb (href link) h then Some 0
      else option_map S (first_match h rest)
  end.

Definition quiet (entries : list Entry) : Prop :=
  Forall (fun entry => isIntersecting entry = false) entries.

Definition sample_links : list Link :=
  [mkLink "#home" true ["px-3"; "text-white"; "bg-white/10"];
   mkLink "#features" false ["btn"];
   mkLink "#features" true ["px-3"; "text-gray-300"];
   mkLink "#features" true ["px-3"; "text-gray-300"];
   mkLink "#contact" true ["px-3"]].

Definition sample_dom : NavDom :=
  mkNavDom true (Some ["md:hidden"; "hidden"]) sample_links
    ["home"; "features"; "contact"; "mobile-menu"; "mobile-menu-btn"] [].

Definition found_of (place : option nat) : Found :=
  match place with
  | Some i => AnchorAt i
  | None => NoElement
  end.

(** What the browser answers for an id of plain text: the selector is the
    one written, and the first anchor in a [nav] with that [href] is
    found. *)
Definition browser_answers (d : NavDom) (entry : Entry) : Prop :=
  plain (target_id entry) = true ->
  active_link entry
  = Ok (found_of (first_match ("#" ++ target_id entry) (links d))).

Definition plain_ids (entries : list Entry) : Prop :=
  Forall (fun entry => isIntersecting entry = true ->
                       plain (target_id entry) = true) entries.

(** The anchors once the section with the given [href] is shown. *)
Definition shown (h : string) (l : list Link) : list Link :=
  match first_match h l with
  | Some i => Navigation.activate_at i (map Navigation.deactivate l)
  | None => map Navigation.deactivate l
  end.

End NavigationSpec.

Module ActiveSpec.
Import NavigationSpec.

(** [b] is the anchor [a] after the observer has worked on it: the same
    [href] and place, untouched outside a [nav], and with the same classes
    apart from the three the observer sets and removes. *)
Definition same_link (a b : Link) : Prop :=
  href b = href a /\ in_nav b = in_nav a /\
  (in_nav a = false -> b = a) /\
  forall t, state_token t = false ->
            contains t (link_classes b) = contains t (link_classes a).

Definition is_first_match (h : string) (l : list Link) (i : nat) : bool :=
  match first_match h l with
  | Some j => Nat.eqb j i
  | None => false
  end.

End ActiveSpec.

Module InitSpec.

Definition init_line : LogEntry :=
  ConsoleLog "Initializing ZhiyanTrack website...".

Definition complete_line : LogEntry :=
  ConsoleLog "Website initialization complete".

Definition menu_listeners (d : NavDom) : nat :=
  match mobile_menu d with
  | Some _ => if mobile_menu_btn d then 1 else 0
  | None => 0
  end.

(** The page as [loadAndRenderContent] finds it during [init]. *)
Definition page_after_greeting (s : Site) : Page :=
  mkPage (app (page s)) (doc (page s)) (console (page s) ++ [init_line]).

End InitSpec.

(** A payload with the members of all four sections, and a server that
    answers every path with it. *)
Definition full_payload : JSValue :=
  JObj [("features", JArr ten_records);
        ("technologies", JArr (map sample_record ["a"; "b"]));
        ("scenarios", JArr ten_records);
        ("deliveryItems", JArr [sample_item])].

Definition all_containers (d : Document) : Prop :=
  present (features_grid d) = true /\ present (tech_preview d) = true /\
  present (use_cases_grid d) = true /\
  present (service_table_container d) = true.

(** The path of the request at a place, and the paths of the four
    requests in the order in which they settle. *)
Definition path_at (i : nat) : string := nth i data_paths EmptyString.

Definition settled_paths (fetch : Fetch) : list string :=
  map path_at (schedule (settle_order fetch) (length data_paths)).

(** How many tags the markup opens or closes: the number of [<] in it. *)
Fixpoint tag_marks (s : string) : nat :=
  match s with
  | EmptyString => 0
  | String c rest => (if Ascii.eqb c "<" then 1 else 0) + tag_marks rest
  end.

(** A record no member of which carries a tag in its text. *)
Definition markup_free (v : JSValue) : bool :=
  match v with
  | JObj props =>
      forallb (fun kv => match to_text (snd kv) with
                         | Ok s => Nat.eqb (tag_marks s) 0
                         | Throw _ => false
                         end) props
  | _ => false
  end.

(** * Properties *)

(** ** Concrete calls *)

Example renderServiceTable_null :
  UIComponents.renderServiceTable JNull = Ok UIComponents.service_placeholder.
Proof. reflexivity. Qed.

Example renderServiceTable_empty_object :
  UIComponents.renderServiceTable (JObj []) = Ok UIComponents.service_placeholder.
Proof. reflexivity. Qed.

Example renderServiceTable_one_item :
  UIComponents.renderServiceTable sample_service_model
    = Ok (UIComponents.service_table (UIComponents.table_row "A" "B" "C" "D")).
Proof. reflexivity. Qed.

(** A [deliveryItems] that is truthy and no array has no [map]; an item
    that is [null] has no members. *)
Example renderServiceTable_text_member :
  UIComponents.renderServiceTable (JObj [("deliveryItems", JStr "x")])
    = Throw TypeError.
Proof. reflexivity. Qed.

Example renderServiceTable_null_item :
  UIComponents.renderServiceTable (JObj [("deliveryItems", JArr [JNull])])
    = Throw TypeError.
Proof. reflexivity. Qed.

Example to_text_nested_array :
  to_text (JArr [JNull; JStr "a"; JArr [JStr "b"; JUndefined]; JBool true])
    = Ok ",a,b,,true".
Proof. reflexivity. Qed.

(** ** Results and lists *)

Lemma traverse_Forall2 {A B} (f : A -> Result B) (l : list A) (ys : list B) :
  traverse f l = Ok ys <-> Forall2 (fun x y => f x = Ok y) l ys.
Proof.
  revert ys. induction l as [|x rest IH]; intros ys; simpl.
  - split.
    + intros H. injection H as <-. constructor.
    + intros H. inversion H. reflexivity.
  - split.
    + destruct (f x) as [y|e] eqn:Hx; simpl; [|discriminate].
      destruct (traverse f rest) as [zs|e] eqn:Hr; simpl; [|discriminate].
      intros H. injection H as <-. constructor; [exact Hx|].
      apply IH. reflexivity.
    + intros H. inversion H as [|x' y l' zs Hx Hrest]; subst.
      rewrite Hx. simpl.
      apply IH in Hrest. rewrite Hrest. reflexivity.
Qed.

Lemma traverse_total {A B} (f : A -> Result B) (l : list A) :
  Forall (fun x => exists y, f x = Ok y) l ->
  exists ys, traverse f l = Ok ys.
Proof.
  induction 1 as [|x rest [y Hy] _ [ys Hys]]; simpl.
  - exists []. reflexivity.
  - exists (y :: ys). rewrite Hy, Hys. reflexivity.
Qed.

Lemma Forall_firstn {A} (P : A -> Prop) (n : nat) (l : list A) :
  Forall P l -> Forall P (firstn n l).
Proof.
  intros H. revert n. induction H as [|x rest Hx _ IH]; intros [|n]; simpl;
    constructor; auto.
Qed.

(** ** Values *)

Lemma primitive_to_text (v : JSValue) :
  primitive v = true -> exists s, to_text v = Ok s.
Proof.
  destruct v as [| |[|]|n|s|items|props]; simpl; intros H;
    try discriminate; eexists; reflexivity.
Qed.

Lemma assoc_forallb (P : JSValue -> bool) (k : string) props x :
  forallb (fun kv => P (snd kv)) props = true ->
  assoc k props = Some x -> P x = true.
Proof.
  induction props as [|[k' v] rest IH]; simpl; [discriminate|].
  intros Hall. apply andb_true_iff in Hall as [Hv Hrest].
  destruct (String.eqb k k').
  - intros H. injection H as <-. exact Hv.
  - apply IH. exact Hrest.
Qed.

Lemma record_member_text (v : JSValue) (k : string) :
  is_record v = true -> exists s, member_text v k = Ok s.
Proof.
  destruct v as [| | | | | |props]; simpl; try discriminate.
  intros Hrec. unfold member_text. simpl.
  destruct (assoc k props) as [x|] eqn:Hk; simpl.
  - apply primitive_to_text. exact (assoc_forallb primitive k props x Hrec Hk).
  - eexists. reflexivity.
Qed.

Lemma truthy_get_member (v : JSValue) (k : string) :
  truthy v = true -> exists x, get_member v k = Ok x.
Proof.
  destruct v; simpl; try discriminate; intros _;
    try (eexists; reflexivity).
  destruct (assoc k props); eexists; reflexivity.
Qed.

Lemma get_member_array_truthy (v : JSValue) (k : string) items :
  get_member v k = Ok (JArr items) -> truthy v = true.
Proof.
  destruct v; simpl; try discriminate; reflexivity.
Qed.

Lemma has_member_truthy_member (v : JSValue) (k : string) :
  has_member v k = false -> truthy_member v k = false.
Proof.
  unfold truthy_member. destruct v; simpl; try reflexivity.
  destruct (assoc k props); [discriminate | reflexivity].
Qed.

(** ** UIComponents *)

Module UIComponentsFacts.
Import UIComponents.

Lemma record_feature_card (v : JSValue) :
  is_record v = true -> exists card, renderFeatureCard v = Ok card.
Proof.
  intros H. unfold renderFeatureCard.
  destruct (record_member_text v "icon" H) as [a ->].
  destruct (record_member_text v "title" H) as [b ->].
  destruct (record_member_text v "description" H) as [c ->].
  destruct (record_member_text v "value" H) as [d ->].
  simpl. eexists. reflexivity.
Qed.

Lemma record_use_case_card (v : JSValue) :
  is_record v = true -> exists card, renderUseCaseCard v = Ok card.
Proof.
  intros H. unfold renderUseCaseCard.
  destruct (record_member_text v "icon" H) as [a ->].
  destruct (record_member_text v "scenario" H) as [b ->].
  destruct (record_member_text v "painPoint" H) as [c ->].
  destruct (record_member_text v "solution" H) as [d ->].
  destruct (record_member_text v "benefit" H) as [e ->].
  simpl. eexists. reflexivity.
Qed.

Lemma record_row (v : JSValue) :
  is_record v = true ->
  exists a b c d,
    member_text v "reportType" = Ok a /\ member_text v "frequency" = Ok b /\
    member_text v "coreContent" = Ok c /\ member_text v "value" = Ok d /\
    renderRow v = Ok (table_row a b c d).
Proof.
  intros H. unfold renderRow.
  destruct (record_member_text v "reportType" H) as [a ->].
  destruct (record_member_text v "frequency" H) as [b ->].
  destruct (record_member_text v "coreContent" H) as [c ->].
  destruct (record_member_text v "value" H) as [d ->].
  exists a, b, c, d. simpl. repeat split; reflexivity.
Qed.

Lemma table_not_placeholder (tableRows : string) :
  service_table tableRows <> service_placeholder.
Proof.
  unfold service_table, table_head, service_placeholder, ln, open_tag.
  simpl. discriminate.
Qed.

(** The placeholder comes out of the two guards and of nothing else. *)
Lemma renderServiceTable_cases (v : JSValue) :
  (truthy v = false /\ renderServiceTable v = Ok service_placeholder) \/
  (exists d, truthy v = true /\ get_member v "deliveryItems" = Ok d /\
             truthy d = false /\
             renderServiceTable v = Ok service_placeholder) \/
  (exists d, truthy v = true /\ get_member v "deliveryItems" = Ok d /\
             truthy d = true /\
             renderServiceTable v =
               (let? items := array_receiver d in
                let? rows := traverse renderRow items in
                Ok (service_table (join_empty rows)))).
Proof.
  destruct (truthy v) eqn:Hv.
  - right.
    destruct (truthy_get_member v "deliveryItems" Hv) as [d Hd].
    destruct (truthy d) eqn:Ht; [right|left]; exists d;
      (repeat split; try assumption);
      unfold renderServiceTable; rewrite Hv, Hd; simpl; rewrite Ht;
      reflexivity.
  - left. split; [reflexivity|].
    unfold renderServiceTable. rewrite Hv. reflexivity.
Qed.

End UIComponentsFacts.

(** C8.  [renderFeatureCard] on the record
    [{icon:"🔧", title:"T", description:"D", value:"V"}] gives the card
    template with these four values in its four places, each of them
    occurring in the fragment as it is, and nothing of the record but
    these four members reaches the fragment: further members leave it as
    it is. *)
Theorem renderFeatureCard_fixed_record :
  UIComponents.renderFeatureCard (JObj sample_feature_props)
    = Ok (UIComponents.feature_card "🔧" "T" "D" "V") /\
  forallb (fun value => occurs value (UIComponents.feature_card "🔧" "T" "D" "V"))
    ["🔧"; "T"; "D"; "V"] = true /\
  forall extra : list (string * JSValue),
    UIComponents.renderFeatureCard (JObj (sample_feature_props ++ extra))
      = Ok (UIComponents.feature_card "🔧" "T" "D" "V").
Proof.
  split; [reflexivity|]. split; [vm_compute; reflexivity|].
  intros extra. reflexivity.
Qed.

(** C3, as the claim states it, at [{deliveryItems: false}]: the member is
    there and the argument is not [null], yet the placeholder comes
    back. *)
Lemma renderServiceTable_false_member :
  ~ (UIComponents.renderServiceTable (JObj [("deliveryItems", JBool false)])
       = Ok UIComponents.service_placeholder
     <-> (JObj [("deliveryItems", JBool false)] = JNull \/
          has_member (JObj [("deliveryItems", JBool false)]) "deliveryItems"
            = false)).
Proof.
  intros [Hplaceholder _].
  destruct (Hplaceholder eq_refl) as [H|H]; discriminate H.
Qed.

(** C3, amended.  [renderServiceTable] returns the "loading" placeholder
    exactly when its argument is falsy or the [deliveryItems] member of
    its argument is falsy (missing, [null], [false], zero, the empty
    string).  When [deliveryItems] is an array of records it returns the
    table with one data row per item, in order, each row holding the
    item's [reportType], [frequency], [coreContent] and [value].  An
    argument that is [null] or has no [deliveryItems] member gets the
    placeholder, as the claim has it. *)
Theorem renderServiceTable_guard_and_rows (v : JSValue) :
  (UIComponents.renderServiceTable v = Ok UIComponents.service_placeholder <->
   (truthy v = false \/
    exists d, get_member v "deliveryItems" = Ok d /\ truthy d = false)) /\
  (forall items : list JSValue,
     get_member v "deliveryItems" = Ok (JArr items) ->
     Forall (fun item => is_record item = true) items ->
     exists rows : list string,
       UIComponents.renderServiceTable v
         = Ok (UIComponents.service_table (join_empty rows)) /\
       length rows = length items /\
       Forall2
         (fun item row =>
            exists a b c d,
              member_text item "reportType" = Ok a /\
              member_text item "frequency" = Ok b /\
              member_text item "coreContent" = Ok c /\
              member_text item "value" = Ok d /\
              row = UIComponents.table_row a b c d)
         items rows) /\
  (v = JNull \/ has_member v "deliveryItems" = false ->
   UIComponents.renderServiceTable v = Ok UIComponents.service_placeholder).
Proof.
  split; [|split].
  - split.
    + intros Hres.
      destruct (UIComponentsFacts.renderServiceTable_cases v)
        as [[Hv _]|[(d & _ & Hd & Ht & _)|(d & _ & _ & _ & Heq)]].
      * left. exact Hv.
      * right. exists d. split; assumption.
      * exfalso. rewrite Heq in Hres.
        destruct (array_receiver d) as [items|e]; simpl in Hres; [|discriminate].
        destruct (traverse UIComponents.renderRow items) as [rows|e];
          simpl in Hres; [|discriminate].
        apply (UIComponentsFacts.table_not_placeholder (join_empty rows)).
        congruence.
    + intros Hcond.
      destruct (UIComponentsFacts.renderServiceTable_cases v)
        as [[_ Hres]|[(d & _ & _ & _ & Hres)|(d & Hv & Hd & Ht & _)]];
        try exact Hres.
      exfalso. destruct Hcond as [Hv'|(d' & Hd' & Ht')].
      * congruence.
      * rewrite Hd in Hd'. injection Hd' as <-. congruence.
  - intros items Hd Hrecords.
    assert (Hrows : exists rows,
               traverse UIComponents.renderRow items = Ok rows).
    { apply traverse_total.
      eapply Forall_impl; [|exact Hrecords].
      intros item Hitem.
      destruct (UIComponentsFacts.record_row item Hitem)
        as (a & b & c & d & _ & _ & _ & _ & Hrow).
      eexists. exact Hrow. }
    destruct Hrows as [rows Hrows].
    exists rows.
    assert (Hall : Forall2 (fun item row => UIComponents.renderRow item = Ok row)
                     items rows) by (apply traverse_Forall2; exact Hrows).
    split; [|split].
    + unfold UIComponents.renderServiceTable.
      rewrite (get_member_array_truthy v _ items Hd), Hd. simpl.
      rewrite Hrows. reflexivity.
    + symmetry. exact (Forall2_length Hall).
    + clear Hrows Hd. induction Hall as [|item row items rows Hrow _ IH].
      * constructor.
      * inversion Hrecords as [|? ? Hitem Hrest]; subst.
        constructor; [|exact (IH Hrest)].
        destruct (UIComponentsFacts.record_row item Hitem)
          as (a & b & c & d & Ha & Hb & Hc & Hd & Hrow').
        exists a, b, c, d. repeat split; try assumption. congruence.
  - intros Hmissing.
    assert (Hfalse : has_member v "deliveryItems" = false).
    { destruct Hmissing as [->|H]; [reflexivity | exact H]. }
    apply has_member_truthy_member in Hfalse. unfold truthy_member in Hfalse.
    destruct (UIComponentsFacts.renderServiceTable_cases v)
      as [[_ Hres]|[(d & _ & _ & _ & Hres)|(d & _ & Hd & Ht & _)]];
      try exact Hres.
    rewrite Hd in Hfalse. congruence.
Qed.

Lemma renderServiceTable_guard_and_rows_witness :
  exists rows : list string,
    UIComponents.renderServiceTable sample_service_model
      = Ok (UIComponents.service_table (join_empty rows)) /\
    length rows = 1 /\
    Forall2
      (fun item row =>
         exists a b c d,
           member_text item "reportType" = Ok a /\
           member_text item "frequency" = Ok b /\
           member_text item "coreContent" = Ok c /\
           member_text item "value" = Ok d /\
           row = UIComponents.table_row a b c d)
      [sample_item] rows.
Proof.
  apply (proj1 (proj2 (renderServiceTable_guard_and_rows sample_service_model))
           [sample_item]).
  - reflexivity.
  - repeat constructor.
Defined.

(** C9.  A payload whose [deliveryItems] is the empty array gets the
    table, header and no data row, and not the placeholder. *)
Theorem renderServiceTable_empty_items (props : list (string * JSValue)) :
  assoc "deliveryItems" props = Some (JArr []) ->
  UIComponents.renderServiceTable (JObj props)
    = Ok (UIComponents.table_head ++ UIComponents.table_foot) /\
  UIComponents.table_head ++ UIComponents.table_foot
    <> UIComponents.service_placeholder.
Proof.
  intros Hitems. split.
  - unfold UIComponents.renderServiceTable. simpl. rewrite Hitems. reflexivity.
  - exact (UIComponentsFacts.table_not_placeholder EmptyString).
Qed.

Lemma renderServiceTable_empty_items_witness :
  UIComponents.renderServiceTable (JObj [("deliveryItems", JArr [])])
    = Ok (UIComponents.table_head ++ UIComponents.table_foot) /\
  UIComponents.table_head ++ UIComponents.table_foot
    <> UIComponents.service_placeholder.
Proof.
  apply (renderServiceTable_empty_items [("deliveryItems", JArr [])]).
  reflexivity.
Defined.

(** ** DataLoader *)

Lemma bind_ok {A B} (m : M A) (k : A -> M B) pg a pg1 :
  m pg = (Ok a, pg1) -> bind m k pg = k a pg1.
Proof. intros H. unfold bind. rewrite H. reflexivity. Qed.

Module LoadSteps.
Import DataLoader.

Lemma schedule_lt (order : list nat) (n i : nat) :
  In i (schedule order n) -> i < n.
Proof.
  unfold schedule. intros Hin. apply in_app_or in Hin as [Hin|Hin].
  - apply nodup_In, filter_In in Hin as [_ Hlt]. apply Nat.ltb_lt, Hlt.
  - apply filter_In in Hin as [Hin _]. apply in_seq in Hin. lia.
Qed.

Lemma schedule_complete (order : list nat) (n i : nat) :
  i < n -> In i (schedule order n).
Proof.
  unfold schedule. intros Hlt. apply in_or_app.
  set (listed := nodup Nat.eq_dec (filter (fun j => (j <? n)%nat) order)).
  destruct (existsb (Nat.eqb i) listed) eqn:Hlisted.
  - left. apply existsb_exists in Hlisted as (j & Hj & Heq).
    apply Nat.eqb_eq in Heq. subst j. exact Hj.
  - right. apply filter_In. split; [apply in_seq; lia|].
    rewrite Hlisted. reflexivity.
Qed.

Lemma schedule_NoDup (order : list nat) (n : nat) : NoDup (schedule order n).
Proof.
  unfold schedule. apply NoDup_app.
  - apply NoDup_nodup.
  - apply NoDup_filter, seq_NoDup.
  - intros i Hlisted Hrest. apply filter_In in Hrest as [_ Hnot].
    apply negb_true_iff in Hnot.
    assert (Hyes : existsb (Nat.eqb i)
                     (nodup Nat.eq_dec (filter (fun j => (j <? n)%nat) order))
                   = true).
    { apply existsb_exists. exists i. split; [exact Hlisted|].
      apply Nat.eqb_refl. }
    congruence.
Qed.

(** Every request settles, once. *)
Lemma schedule_Permutation (order : list nat) (n : nat) :
  Permutation (schedule order n) (seq 0 n).
Proof.
  apply NoDup_Permutation; [apply schedule_NoDup | apply seq_NoDup|].
  intros i. split.
  - intros Hin. apply in_seq. apply schedule_lt in Hin. lia.
  - intros Hin. apply in_seq in Hin. apply schedule_complete. lia.
Qed.

Section Calls.

Context {A : Type}.
Variable calls : list (M A).
Variable value : nat -> A.
Variable lines : nat -> list LogEntry.

(** Every call ends normally and writes to the console only. *)
Hypothesis calls_log_only :
  forall i call pg,
    nth_error calls i = Some call ->
    call pg = (Ok (value i),
               mkPage (app pg) (doc pg) (console pg ++ lines i)).

Lemma settle_exact (places : list nat) (pg : Page) :
  Forall (fun i => i < length calls) places ->
  settle calls places pg
  = (Ok (map (fun i => (i, value i)) places),
     mkPage (app pg) (doc pg) (console pg ++ flat_map lines places)).
Proof.
  intros Hplaces. revert pg.
  induction Hplaces as [|i rest Hi _ IH]; intros pg; simpl.
  - unfold ret. rewrite app_nil_r. destruct pg. reflexivity.
  - destruct (nth_error calls i) as [call|] eqn:Hcall.
    + unfold bind. rewrite (calls_log_only i call pg Hcall), IH.
      unfold ret. simpl. rewrite app_assoc. reflexivity.
    + apply nth_error_None in Hcall. lia.
Qed.

Lemma result_at_settled (places : list nat) (i : nat) :
  In i places ->
  result_at (map (fun j => (j, value j)) places) i = [value i].
Proof.
  unfold result_at. induction places as [|j rest IH]; [intros []|].
  simpl. destruct (Nat.eqb_spec j i) as [->|Hne]; [reflexivity|].
  intros [Heq|Hin]; [contradiction | exact (IH Hin)].
Qed.

Lemma in_flight_exact (order : list nat) (pg : Page) :
  in_flight order calls pg
  = (Ok (map value (seq 0 (length calls))),
     mkPage (app pg) (doc pg)
       (console pg ++ flat_map lines (schedule order (length calls)))).
Proof.
  unfold in_flight, bind. rewrite settle_exact.
  - unfold ret. f_equal. f_equal.
    assert (Hall : forall l,
               (forall i, In i l -> i < length calls) ->
               flat_map
                 (result_at
                    (map (fun i => (i, value i))
                       (schedule order (length calls)))) l
               = map value l).
    { induction l as [|i l IH]; intros Hl; [reflexivity|].
      simpl. rewrite result_at_settled, IH.
      - reflexivity.
      - intros j Hj. apply Hl. right. exact Hj.
      - apply schedule_complete, Hl. left. reflexivity. }
    apply Hall. intros i Hi. apply in_seq in Hi. lia.
  - apply Forall_forall. intros i. apply schedule_lt.
Qed.

End Calls.

Section Fetching.

Variable fetch : Fetch.

Lemma loadJSON_exact (path : string) (pg : Page) :
  loadJSON fetch path pg
    = (Ok (Ok (resource_value fetch path)),
       mkPage (app pg) (doc pg) (console pg ++ error_lines fetch [path])).
Proof.
  unfold loadJSON, async, loadJSON_body, try_catch, bind, await, lift,
    resource_value, error_lines, resource_failure.
  simpl. destruct pg as [state d out]. simpl.
  destruct (fetch path) as [r|e]; simpl.
  - destruct (response_ok r); simpl.
    + destruct (json r) as [v|e]; simpl; rewrite ?app_nil_r; reflexivity.
    + rewrite ?app_nil_r. reflexivity.
  - rewrite ?app_nil_r. reflexivity.
Qed.

Lemma error_lines_app (l1 l2 : list string) :
  error_lines fetch (l1 ++ l2) = (error_lines fetch l1 ++ error_lines fetch l2)%list.
Proof. unfold error_lines. apply flat_map_app. Qed.

Lemma error_lines_places (places : list nat) :
  flat_map (fun i => error_lines fetch [path_at i]) places
  = error_lines fetch (map path_at places).
Proof.
  induction places as [|i rest IH]; [reflexivity|].
  cbn [flat_map map]. rewrite IH.
  change (path_at i :: map path_at rest)
    with ([path_at i] ++ map path_at rest)%list.
  rewrite error_lines_app. reflexivity.
Qed.

Lemma error_lines_errors (paths : list string) :
  Forall is_console_error (error_lines fetch paths).
Proof.
  induction paths as [|path rest IH]; [constructor|].
  change (path :: rest) with ([path] ++ rest)%list.
  rewrite error_lines_app. apply Forall_app. split; [|exact IH].
  unfold error_lines. simpl.
  destruct (resource_failure fetch path); repeat constructor.
  eexists _, _. reflexivity.
Qed.

Lemma resource_value_payload (path : string) :
  resource_payload fetch path (resource_value fetch path).
Proof.
  unfold resource_value.
  destruct (fetch path) as [r|e] eqn:Hfetch.
  - destruct (response_ok r) eqn:Hok.
    + destruct (json r) as [v|e] eqn:Hjson.
      * exact (payload_loaded fetch path r v Hfetch Hok Hjson).
      * exact (payload_parse_error fetch path r e Hfetch Hok Hjson).
    + exact (payload_bad_status fetch path r Hfetch Hok).
  - exact (payload_network_error fetch path e Hfetch).
Qed.

Lemma settled_paths_Permutation : Permutation (settled_paths fetch) data_paths.
Proof.
  unfold settled_paths.
  change data_paths with (map path_at (seq 0 (length data_paths))).
  apply Permutation_map, schedule_Permutation.
Qed.

(** The state when the four loads have settled. *)
Lemma loadAllData_issue_exact (pg : Page) :
  loadAllData_issue fetch pg
    = (Ok [Ok (resource_value fetch "data/product-features.json");
           Ok (resource_value fetch "data/tech-advantages.json");
           Ok (resource_value fetch "data/use-cases.json");
           Ok (resource_value fetch "data/service-model.json")],
       mkPage (AppState.mk true (AppState.data (app pg))) (doc pg)
         (console pg ++ error_lines fetch (settled_paths fetch))).
Proof.
  unfold loadAllData_issue.
  rewrite (bind_ok (set_isLoading true) _ pg tt _ eq_refl).
  rewrite (in_flight_exact _
             (fun i => Ok (resource_value fetch (path_at i)))
             (fun i => error_lines fetch [path_at i])).
  - rewrite error_lines_places. reflexivity.
  - intros i call p Hcall.
    destruct i as [|[|[|[|i]]]]; simpl in Hcall;
      try (injection Hcall as <-; apply loadJSON_exact).
    destruct i; discriminate Hcall.
Qed.

End Fetching.

End LoadSteps.

Module DataLoaderFacts.
Import DataLoader.

(** The two ways out of [loadAllData]. *)
Lemma loadAllData_resume_fulfilled ps results (pg : Page) :
  promise_all ps = Ok results ->
  loadAllData_resume ps pg =
    (Ok true,
     mkPage (AppState.mk false
               (AppState.mkData (nth 0 results JUndefined)
                  (nth 1 results JUndefined) (nth 2 results JUndefined)
                  (nth 3 results JUndefined)))
       (doc pg) (console pg)).
Proof.
  intros H. unfold loadAllData_resume, try_finally, try_catch, bind, await, lift.
  rewrite H. reflexivity.
Qed.

Lemma loadAllData_resume_rejected ps error (pg : Page) :
  promise_all ps = Throw error ->
  loadAllData_resume ps pg =
    (Ok false,
     mkPage (AppState.mk false (AppState.data (app pg))) (doc pg)
       (console pg ++ [ConsoleError "Error loading data:" error])).
Proof.
  intros H. unfold loadAllData_resume, try_finally, try_catch, bind, await, lift.
  rewrite H. reflexivity.
Qed.

Section Fetching.

Variable fetch : Fetch.

(** The promise of [loadJSON] is always fulfilled; the call touches the
    console only, and only with error lines. *)
Lemma loadJSON_fulfilled (path : string) (pg : Page) :
  exists v pg',
    loadJSON fetch path pg = (Ok (Ok v), pg') /\
    resource_payload fetch path v /\
    app pg' = app pg /\ doc pg' = doc pg /\
    exists entries, console pg' = (console pg ++ entries)%list /\
                    Forall is_console_error entries.
Proof.
  unfold loadJSON, async, loadJSON_body, try_catch, bind, await, lift.
  destruct (fetch path) as [r|e] eqn:Hfetch.
  - destruct (response_ok r) eqn:Hok; simpl.
    + destruct (json r) as [v|e] eqn:Hjson.
      * exists v, pg. split; [reflexivity|].
        split; [exact (payload_loaded fetch path r v Hfetch Hok Hjson)|].
        repeat split. exists []. rewrite app_nil_r. split; constructor.
      * eexists JNull, _. split; [reflexivity|].
        split; [exact (payload_parse_error fetch path r e Hfetch Hok Hjson)|].
        repeat split. eexists. split; [reflexivity|].
        repeat constructor. eexists _, _. reflexivity.
    + eexists JNull, _. split; [reflexivity|].
      split; [exact (payload_bad_status fetch path r Hfetch Hok)|].
      repeat split. eexists. split; [reflexivity|].
      repeat constructor. eexists _, _. reflexivity.
  - eexists JNull, _. split; [reflexivity|].
    split; [exact (payload_network_error fetch path e Hfetch)|].
    repeat split. eexists. split; [reflexivity|].
    repeat constructor. eexists _, _. reflexivity.
Qed.

(** The four promises handed to [Promise.all], from any page. *)
Lemma loadAllData_issue_spec (pg : Page) :
  exists v0 v1 v2 v3 pg1,
    loadAllData_issue fetch pg = (Ok [Ok v0; Ok v1; Ok v2; Ok v3], pg1) /\
    resource_payload fetch "data/product-features.json" v0 /\
    resource_payload fetch "data/tech-advantages.json" v1 /\
    resource_payload fetch "data/use-cases.json" v2 /\
    resource_payload fetch "data/service-model.json" v3 /\
    app pg1 = AppState.mk true (AppState.data (app pg)) /\
    doc pg1 = doc pg /\
    exists entries, console pg1 = (console pg ++ entries)%list /\
                    Forall is_console_error entries.
Proof.
  eexists _, _, _, _, _.
  split; [apply LoadSteps.loadAllData_issue_exact|].
  repeat (split; [apply LoadSteps.resource_value_payload|]).
  split; [reflexivity|]. split; [reflexivity|].
  eexists. split; [reflexivity | apply LoadSteps.error_lines_errors].
Qed.

(** [loadAllData] as one step: the flag is back to [false], the four
    payloads are in, the document is as it was. *)
Lemma loadAllData_spec (pg : Page) :
  exists v0 v1 v2 v3 entries,
    loadAllData fetch pg =
      (Ok true,
       mkPage (AppState.mk false (AppState.mkData v0 v1 v2 v3)) (doc pg)
         (console pg ++ entries)) /\
    resource_payload fetch "data/product-features.json" v0 /\
    resource_payload fetch "data/tech-advantages.json" v1 /\
    resource_payload fetch "data/use-cases.json" v2 /\
    resource_payload fetch "data/service-model.json" v3 /\
    Forall is_console_error entries.
Proof.
  destruct (loadAllData_issue_spec pg)
    as (v0 & v1 & v2 & v3 & pg1 & Hissue & P0 & P1 & P2 & P3
        & _ & Hdoc & entries & Hconsole & Hentries).
  exists v0, v1, v2, v3, entries.
  unfold loadAllData. rewrite (bind_ok _ _ _ _ _ Hissue).
  rewrite (loadAllData_resume_fulfilled
             [Ok v0; Ok v1; Ok v2; Ok v3] [v0; v1; v2; v3] pg1 eq_refl).
  rewrite Hdoc, Hconsole. simpl. auto 10.
Qed.

Lemma rejected_payload_null (path : string) (v : JSValue) :
  (exists e, fetch path = Throw e) -> resource_payload fetch path v -> v = JNull.
Proof.
  intros [e He] Hpayload.
  inversion Hpayload; subst; try reflexivity; congruence.
Qed.

End Fetching.

End DataLoaderFacts.

(** C1.  Whatever each of the four fetches does (a body that parses, a
    status outside the success range, a network error, a parse error),
    [loadAllData] returns [true] without throwing, and each of the four
    keys of [AppState.data] holds the parsed payload of its resource when
    that resource loaded and [null] when it failed. *)
Theorem loadAllData_fail_soft (fetch : Fetch) (pg : Page) :
  exists pg',
    DataLoader.loadAllData fetch pg = (Ok true, pg') /\
    resource_payload fetch "data/product-features.json"
      (AppState.features (AppState.data (app pg'))) /\
    resource_payload fetch "data/tech-advantages.json"
      (AppState.techAdvantages (AppState.data (app pg'))) /\
    resource_payload fetch "data/use-cases.json"
      (AppState.useCases (AppState.data (app pg'))) /\
    resource_payload fetch "data/service-model.json"
      (AppState.serviceModel (AppState.data (app pg'))).
Proof.
  destruct (DataLoaderFacts.loadAllData_issue_spec fetch pg)
    as (v0 & v1 & v2 & v3 & pg1 & Hissue & P0 & P1 & P2 & P3 & _).
  unfold DataLoader.loadAllData.
  rewrite (bind_ok _ _ _ _ _ Hissue).
  rewrite (DataLoaderFacts.loadAllData_resume_fulfilled
             [Ok v0; Ok v1; Ok v2; Ok v3] [v0; v1; v2; v3] pg1 eq_refl).
  eexists. split; [reflexivity|]. simpl. auto.
Qed.

(** C7.  [loadAllData] raises [isLoading] before the first load is
    called, so the four loads run with the flag at [true], and has it at
    [true] until they have settled; what is left of [loadAllData] is its
    [try], [catch] and [finally], which put the flag back to [false] on
    both ways out, the [true] return and the [false] return of the
    [catch] block; so the flag is [false] once [loadAllData] has
    completed. *)
Theorem loadAllData_isLoading (fetch : Fetch) (pg : Page) :
  (exists promises pg1,
     DataLoader.loadAllData_issue fetch pg = (Ok promises, pg1) /\
     DataLoader.loadAllData_issue fetch pg
       = in_flight (settle_order fetch)
           [DataLoader.loadJSON fetch "data/product-features.json";
            DataLoader.loadJSON fetch "data/tech-advantages.json";
            DataLoader.loadJSON fetch "data/use-cases.json";
            DataLoader.loadJSON fetch "data/service-model.json"]
           (mkPage (AppState.mk true (AppState.data (app pg))) (doc pg)
              (console pg)) /\
     AppState.isLoading (app pg1) = true /\
     DataLoader.loadAllData fetch pg
       = DataLoader.loadAllData_resume promises pg1) /\
  (forall promises pg1,
     exists success pg',
       DataLoader.loadAllData_resume promises pg1 = (Ok success, pg') /\
       AppState.isLoading (app pg') = false /\
       (success = true <-> exists results, promise_all promises = Ok results)) /\
  (exists success pg',
     DataLoader.loadAllData fetch pg = (Ok success, pg') /\
     AppState.isLoading (app pg') = false).
Proof.
  destruct (DataLoaderFacts.loadAllData_issue_spec fetch pg)
    as (v0 & v1 & v2 & v3 & pg1 & Hissue & _ & _ & _ & _ & Happ & _).
  split; [|split].
  - exists [Ok v0; Ok v1; Ok v2; Ok v3], pg1. split; [exact Hissue|].
    split; [reflexivity|]. split; [rewrite Happ; reflexivity|].
    unfold DataLoader.loadAllData. rewrite (bind_ok _ _ _ _ _ Hissue).
    reflexivity.
  - intros promises pg2.
    destruct (promise_all promises) as [results|error] eqn:Hall.
    + rewrite (DataLoaderFacts.loadAllData_resume_fulfilled _ _ pg2 Hall).
      eexists _, _. split; [reflexivity|]. split; [reflexivity|].
      split; [intros _; exists results; reflexivity | reflexivity].
    + rewrite (DataLoaderFacts.loadAllData_resume_rejected _ _ pg2 Hall).
      eexists _, _. split; [reflexivity|]. split; [reflexivity|].
      split; [discriminate | intros [results H]; discriminate H].
  - unfold DataLoader.loadAllData.
    rewrite (bind_ok _ _ _ _ _ Hissue).
    rewrite (DataLoaderFacts.loadAllData_resume_fulfilled
             [Ok v0; Ok v1; Ok v2; Ok v3] [v0; v1; v2; v3] pg1 eq_refl).
    eexists _, _. split; reflexivity.
Qed.

(** ** PageManager *)

Module PageManagerFacts.
Import PageManager.

Ltac skip_section pg Hguard :=
  destruct pg as [[loading [f t u s]] [cf ct cu cs] out];
  simpl in Hguard; simpl;
  match goal with
  | |- match ?c with _ => _ end = _ => destruct c; [|reflexivity]
  end;
  match goal with
  | |- (if truthy ?p then _ else _) = _ =>
      let Hp := fresh "Hp" in
      destruct (truthy p) eqn:Hp; [|reflexivity];
      unfold truthy_member in Hguard;
      let x := fresh "x" in
      let Hx := fresh "Hx" in
      match type of Hguard with
      | context [get_member p ?k] =>
          destruct (truthy_get_member p k Hp) as [x Hx];
          rewrite Hx in Hguard;
          unfold bind, lift; rewrite Hx, Hguard; reflexivity
      end
  end.

Lemma renderFeatures_skip (pg : Page) :
  truthy_member (AppState.features (AppState.data (app pg))) "features" = false ->
  renderFeatures pg = (Ok tt, pg).
Proof. intros Hguard. unfold renderFeatures. skip_section pg Hguard. Qed.

Lemma renderTechnologyPreview_skip (pg : Page) :
  truthy_member (AppState.techAdvantages (AppState.data (app pg))) "technologies"
    = false ->
  renderTechnologyPreview pg = (Ok tt, pg).
Proof. intros Hguard. unfold renderTechnologyPreview. skip_section pg Hguard. Qed.

Lemma renderUseCases_skip (pg : Page) :
  truthy_member (AppState.useCases (AppState.data (app pg))) "scenarios" = false ->
  renderUseCases pg = (Ok tt, pg).
Proof. intros Hguard. unfold renderUseCases. skip_section pg Hguard. Qed.

Lemma renderServiceModel_placeholder (pg : Page) :
  has_member (AppState.serviceModel (AppState.data (app pg))) "deliveryItems"
    = false ->
  renderServiceModel pg =
    (Ok tt,
     mkPage (app pg)
       (mkDocument (features_grid (doc pg)) (tech_preview (doc pg))
          (use_cases_grid (doc pg))
          (with_markup UIComponents.service_placeholder
             (service_table_container (doc pg))))
       (console pg)).
Proof.
  intros Hmissing.
  assert (Hplaceholder :
            UIComponents.renderServiceTable
              (AppState.serviceModel (AppState.data (app pg)))
            = Ok UIComponents.service_placeholder).
  { destruct (UIComponentsFacts.renderServiceTable_cases
                (AppState.serviceModel (AppState.data (app pg))))
      as [[_ H]|[(d & _ & _ & _ & H)|(d & _ & Hd & Ht & _)]];
      try exact H.
    apply has_member_truthy_member in Hmissing.
    unfold truthy_member in Hmissing. rewrite Hd in Hmissing. congruence. }
  unfold renderServiceModel, bind, lift.
  destruct pg as [state [cf ct cu cs] out]. simpl in *.
  destruct cs; [|reflexivity].
  rewrite Hplaceholder. reflexivity.
Qed.

(** Cards of the first [limit] records of an array. *)
Lemma cards_of_records (card : JSValue -> Result string)
      (limit : nat) (items : list JSValue) :
  (forall item, is_record item = true -> exists c, card item = Ok c) ->
  Forall (fun item => is_record item = true) items ->
  exists cards,
    traverse card (firstn limit items) = Ok cards /\
    length cards = Nat.min (length items) limit /\
    Forall2 (fun item c => card item = Ok c) (firstn limit items) cards.
Proof.
  intros Hcard Hrecords.
  destruct (traverse_total card (firstn limit items)) as [cards Hcards].
  { apply Forall_firstn. eapply Forall_impl; [|exact Hrecords].
    intros item. apply Hcard. }
  exists cards. split; [exact Hcards|].
  apply traverse_Forall2 in Hcards. split; [|exact Hcards].
  rewrite <- (Forall2_length Hcards), length_firstn. apply Nat.min_comm.
Qed.

Lemma showLoading_ok (c : Container) (pg : Page) :
  Utils.showLoading c pg =
    (Ok tt,
     mkPage (app pg)
       (match getElementById c pg with
        | Some _ => set_container c (Some Utils.loading_markup) (doc pg)
        | None => doc pg
        end)
       (console pg)).
Proof.
  unfold Utils.showLoading, set_innerHTML.
  destruct (getElementById c pg); [reflexivity|].
  destruct pg. reflexivity.
Qed.

Lemma show_loading_all {A} (k : M A) (pg : Page) :
  (Utils.showLoading FeaturesGrid ;;
   Utils.showLoading TechPreview ;;
   Utils.showLoading UseCasesGrid ;;
   Utils.showLoading ServiceTableContainer ;;
   k) pg
  = k (mkPage (app pg)
         (mkDocument (with_markup Utils.loading_markup (features_grid (doc pg)))
            (with_markup Utils.loading_markup (tech_preview (doc pg)))
            (with_markup Utils.loading_markup (use_cases_grid (doc pg)))
            (with_markup Utils.loading_markup
               (service_table_container (doc pg))))
         (console pg)).
Proof.
  repeat (erewrite bind_ok; [|apply showLoading_ok]).
  destruct pg as [state [[cf|] [ct|] [cu|] [cs|]] out]; reflexivity.
Qed.

Lemma render_outcome_null_data (pg : Page) :
  AppState.data (app pg) = null_data ->
  render_outcome true pg =
    (Ok tt,
     mkPage (app pg)
       (mkDocument (features_grid (doc pg)) (tech_preview (doc pg))
          (use_cases_grid (doc pg))
          (with_markup UIComponents.service_placeholder
             (service_table_container (doc pg))))
       (console pg)).
Proof.
  intros Hdata. unfold render_outcome.
  rewrite (bind_ok _ _ pg tt pg);
    [|apply renderFeatures_skip; rewrite Hdata; reflexivity].
  rewrite (bind_ok _ _ pg tt pg);
    [|apply renderTechnologyPreview_skip; rewrite Hdata; reflexivity].
  rewrite (bind_ok _ _ pg tt pg);
    [|apply renderUseCases_skip; rewrite Hdata; reflexivity].
  apply renderServiceModel_placeholder. rewrite Hdata. reflexivity.
Qed.

Lemma renderFallbackContent_spec (pg : Page) :
  renderFallbackContent pg =
    (Ok tt,
     mkPage (app pg)
       (mkDocument (with_markup fallback_markup (features_grid (doc pg)))
          (tech_preview (doc pg)) (use_cases_grid (doc pg))
          (service_table_container (doc pg)))
       (console pg ++ [ConsoleWarn fallback_warning])).
Proof.
  destruct pg as [state [[cf|] ct cu cs] out]; reflexivity.
Qed.

End PageManagerFacts.

(** C4.  With a features payload whose [features] array holds [n]
    records, [renderFeatures] injects the cards of the first [min n 6] of
    them, in the order of the array; with a use-cases payload whose
    [scenarios] array holds [m] records, [renderUseCases] injects the
    cards of the first [min m 3], in the order of the array. *)
Theorem card_sections_limits (pg : Page) :
  (forall (items : list JSValue) (old : string),
     get_member (features_payload pg) "features" = Ok (JArr items) ->
     features_grid (doc pg) = Some old ->
     Forall (fun item => is_record item = true) items ->
     exists cards pg',
       PageManager.renderFeatures pg = (Ok tt, pg') /\
       features_grid (doc pg') = Some (join_empty cards) /\
       length cards = Nat.min (length items) 6 /\
       Forall2 (fun item card => UIComponents.renderFeatureCard item = Ok card)
         (firstn 6 items) cards) /\
  (forall (items : list JSValue) (old : string),
     get_member (useCases_payload pg) "scenarios" = Ok (JArr items) ->
     use_cases_grid (doc pg) = Some old ->
     Forall (fun item => is_record item = true) items ->
     exists cards pg',
       PageManager.renderUseCases pg = (Ok tt, pg') /\
       use_cases_grid (doc pg') = Some (join_empty cards) /\
       length cards = Nat.min (length items) 3 /\
       Forall2 (fun item card => UIComponents.renderUseCaseCard item = Ok card)
         (firstn 3 items) cards).
Proof.
  split; intros items old Hitems Hcontainer Hrecords.
  - destruct (PageManagerFacts.cards_of_records UIComponents.renderFeatureCard
                6 items UIComponentsFacts.record_feature_card Hrecords)
      as (cards & Hcards & Hlen & Hall).
    exists cards.
    pose proof (get_member_array_truthy _ _ _ Hitems) as Htruthy.
    unfold features_payload in *.
    destruct pg as [[loading [f t u s]] [cf ct cu cs] out]. simpl in *.
    subst cf. unfold PageManager.renderFeatures. simpl.
    rewrite Htruthy. unfold bind, lift. rewrite Hitems. simpl.
    rewrite Hcards. simpl.
    eexists. split; [reflexivity|]. simpl. auto.
  - destruct (PageManagerFacts.cards_of_records UIComponents.renderUseCaseCard
                3 items UIComponentsFacts.record_use_case_card Hrecords)
      as (cards & Hcards & Hlen & Hall).
    exists cards.
    pose proof (get_member_array_truthy _ _ _ Hitems) as Htruthy.
    unfold useCases_payload in *.
    destruct pg as [[loading [f t u s]] [cf ct cu cs] out]. simpl in *.
    subst cu. unfold PageManager.renderUseCases. simpl.
    rewrite Htruthy. unfold bind, lift. rewrite Hitems. simpl.
    rewrite Hcards. simpl.
    eexists. split; [reflexivity|]. simpl. auto.
Qed.

Lemma card_sections_limits_witness :
  (exists cards pg',
     PageManager.renderFeatures page_with_ten = (Ok tt, pg') /\
     features_grid (doc pg') = Some (join_empty cards) /\
     length cards = 6 /\
     Forall2 (fun item card => UIComponents.renderFeatureCard item = Ok card)
       (firstn 6 ten_records) cards) /\
  (exists cards pg',
     PageManager.renderUseCases page_with_ten = (Ok tt, pg') /\
     use_cases_grid (doc pg') = Some (join_empty cards) /\
     length cards = 3 /\
     Forall2 (fun item card => UIComponents.renderUseCaseCard item = Ok card)
       (firstn 3 ten_records) cards).
Proof.
  split.
  - apply (proj1 (card_sections_limits page_with_ten) ten_records
             Utils.loading_markup).
    + reflexivity.
    + reflexivity.
    + repeat constructor.
  - apply (proj2 (card_sections_limits page_with_ten) ten_records
             Utils.loading_markup).
    + reflexivity.
    + reflexivity.
    + repeat constructor.
Defined.

(** C5.  When the payload of a section is [null] or lacks the member the
    section reads, the render step of that section does not throw and the
    container stays a placeholder: [renderFeatures],
    [renderTechnologyPreview] and [renderUseCases] leave the page as it
    is, so the loading markup stays; [renderServiceModel] puts the
    "loading" text of the table renderer and touches nothing else. *)
Theorem render_steps_tolerate_missing (pg : Page) :
  (features_payload pg = JNull \/
   has_member (features_payload pg) "features" = false ->
   PageManager.renderFeatures pg = (Ok tt, pg)) /\
  (techAdvantages_payload pg = JNull \/
   has_member (techAdvantages_payload pg) "technologies" = false ->
   PageManager.renderTechnologyPreview pg = (Ok tt, pg)) /\
  (useCases_payload pg = JNull \/
   has_member (useCases_payload pg) "scenarios" = false ->
   PageManager.renderUseCases pg = (Ok tt, pg)) /\
  (serviceModel_payload pg = JNull \/
   has_member (serviceModel_payload pg) "deliveryItems" = false ->
   exists pg',
     PageManager.renderServiceModel pg = (Ok tt, pg') /\
     service_table_container (doc pg')
       = with_markup UIComponents.service_placeholder
           (service_table_container (doc pg)) /\
     features_grid (doc pg') = features_grid (doc pg) /\
     tech_preview (doc pg') = tech_preview (doc pg) /\
     use_cases_grid (doc pg') = use_cases_grid (doc pg) /\
     app pg' = app pg).
Proof.
  assert (Hmissing : forall v k, v = JNull \/ has_member v k = false ->
                                 has_member v k = false).
  { intros v k [->|H]; [reflexivity | exact H]. }
  repeat split.
  - intros H. apply PageManagerFacts.renderFeatures_skip.
    apply has_member_truthy_member, Hmissing, H.
  - intros H. apply PageManagerFacts.renderTechnologyPreview_skip.
    apply has_member_truthy_member, Hmissing, H.
  - intros H. apply PageManagerFacts.renderUseCases_skip.
    apply has_member_truthy_member, Hmissing, H.
  - intros H. eexists. split.
    + apply PageManagerFacts.renderServiceModel_placeholder, Hmissing, H.
    + simpl. auto.
Qed.

Lemma render_steps_tolerate_missing_witness :
  PageManager.renderFeatures page_with_gaps = (Ok tt, page_with_gaps) /\
  PageManager.renderTechnologyPreview page_with_gaps = (Ok tt, page_with_gaps) /\
  PageManager.renderUseCases page_with_gaps = (Ok tt, page_with_gaps) /\
  exists pg',
    PageManager.renderServiceModel page_with_gaps = (Ok tt, pg') /\
    service_table_container (doc pg') = Some UIComponents.service_placeholder /\
    features_grid (doc pg') = Some Utils.loading_markup /\
    tech_preview (doc pg') = Some Utils.loading_markup /\
    use_cases_grid (doc pg') = Some Utils.loading_markup /\
    app pg' = app page_with_gaps.
Proof.
  destruct (render_steps_tolerate_missing page_with_gaps)
    as (Hf & Ht & Hu & Hs).
  split; [apply Hf; left; reflexivity|].
  split; [apply Ht; right; reflexivity|].
  split; [apply Hu; right; reflexivity|].
  apply Hs. right. reflexivity.
Defined.

(** C6.  On a [false] from [loadAllData] the page manager writes the
    static fallback message into the features container and into nothing
    else: the tech, use-case and service-table containers and the
    application state are as they were. *)
Theorem fallback_touches_features_only (pg : Page) :
  exists pg',
    PageManager.render_outcome false pg = (Ok tt, pg') /\
    features_grid (doc pg')
      = with_markup PageManager.fallback_markup (features_grid (doc pg)) /\
    tech_preview (doc pg') = tech_preview (doc pg) /\
    use_cases_grid (doc pg') = use_cases_grid (doc pg) /\
    service_table_container (doc pg') = service_table_container (doc pg) /\
    app pg' = app pg.
Proof.
  eexists. split.
  - unfold PageManager.render_outcome.
    apply PageManagerFacts.renderFallbackContent_spec.
  - simpl. auto.
Qed.

(** C10.  The three card sections want a wrapper object: each render step
    leaves the page as it is unless the payload has a truthy [features],
    [technologies] or [scenarios] member; a payload that is itself an
    array of records has none, and its container keeps the placeholder. *)
Theorem card_sections_need_wrapper (pg : Page) :
  (truthy_member (features_payload pg) "features" = false ->
   PageManager.renderFeatures pg = (Ok tt, pg)) /\
  (truthy_member (techAdvantages_payload pg) "technologies" = false ->
   PageManager.renderTechnologyPreview pg = (Ok tt, pg)) /\
  (truthy_member (useCases_payload pg) "scenarios" = false ->
   PageManager.renderUseCases pg = (Ok tt, pg)) /\
  (forall records, features_payload pg = JArr records ->
                   PageManager.renderFeatures pg = (Ok tt, pg)) /\
  (forall records, techAdvantages_payload pg = JArr records ->
                   PageManager.renderTechnologyPreview pg = (Ok tt, pg)) /\
  (forall records, useCases_payload pg = JArr records ->
                   PageManager.renderUseCases pg = (Ok tt, pg)).
Proof.
  repeat split.
  - apply PageManagerFacts.renderFeatures_skip.
  - apply PageManagerFacts.renderTechnologyPreview_skip.
  - apply PageManagerFacts.renderUseCases_skip.
  - intros records H. apply PageManagerFacts.renderFeatures_skip.
    unfold features_payload in H. rewrite H. reflexivity.
  - intros records H. apply PageManagerFacts.renderTechnologyPreview_skip.
    unfold techAdvantages_payload in H. rewrite H. reflexivity.
  - intros records H. apply PageManagerFacts.renderUseCases_skip.
    unfold useCases_payload in H. rewrite H. reflexivity.
Qed.

Lemma card_sections_need_wrapper_witness :
  PageManager.renderFeatures page_with_bare_arrays
    = (Ok tt, page_with_bare_arrays) /\
  PageManager.renderTechnologyPreview page_with_bare_arrays
    = (Ok tt, page_with_bare_arrays) /\
  PageManager.renderUseCases page_with_bare_arrays
    = (Ok tt, page_with_bare_arrays).
Proof.
  destruct (card_sections_need_wrapper page_with_bare_arrays)
    as (Hf & Ht & Hu & Hf' & Ht' & Hu').
  split; [apply Hf; reflexivity|].
  split; [apply Ht; reflexivity|].
  apply (Hu' ten_records). reflexivity.
Defined.

(** C2, as the claim states it, on a page with the four containers and
    every fetch rejecting: the run ends without an error, but the features
    container does not show the fallback message and the fallback branch
    has left no trace on the console. *)
Lemma all_rejected_no_fallback :
  ~ (exists pg',
       PageManager.loadAndRenderContent reject_all page_at_load = (Ok tt, pg') /\
       features_grid (doc pg') = Some PageManager.fallback_markup /\
       In (ConsoleWarn PageManager.fallback_warning) (console pg')).
Proof.
  intros (pg' & Hrun & Hgrid & _).
  assert (Hshown : features_grid (doc pg') = Some Utils.loading_markup).
  { vm_compute in Hrun. injection Hrun as <-. reflexivity. }
  rewrite Hshown in Hgrid. vm_compute in Hgrid. discriminate Hgrid.
Qed.

(** C2, amended.  When all four fetches reject, [loadAllData] resolves to
    [true] without a thrown error and stores [null] under the four keys;
    the page manager takes the success branch and [renderFallbackContent]
    does not run: the features, tech and use-case containers keep the
    loading markup, the service-table container shows the "loading" text,
    and the console gets error lines only. *)
Theorem all_rejected_success_branch (fetch : Fetch) (pg : Page) :
  (forall path, exists e, fetch path = Throw e) ->
  (exists pg1,
     DataLoader.loadAllData fetch pg = (Ok true, pg1) /\
     AppState.data (app pg1) = null_data) /\
  (exists pg' entries,
     PageManager.loadAndRenderContent fetch pg = (Ok tt, pg') /\
     features_grid (doc pg')
       = with_markup Utils.loading_markup (features_grid (doc pg)) /\
     tech_preview (doc pg')
       = with_markup Utils.loading_markup (tech_preview (doc pg)) /\
     use_cases_grid (doc pg')
       = with_markup Utils.loading_markup (use_cases_grid (doc pg)) /\
     service_table_container (doc pg')
       = with_markup UIComponents.service_placeholder
           (service_table_container (doc pg)) /\
     console pg' = (console pg ++ entries)%list /\
     Forall is_console_error entries).
Proof.
  intros Hreject.
  assert (Hnull : forall p v, resource_payload fetch p v -> v = JNull).
  { intros p v. apply (DataLoaderFacts.rejected_payload_null fetch), Hreject. }
  split.
  - destruct (DataLoaderFacts.loadAllData_spec fetch pg)
      as (v0 & v1 & v2 & v3 & entries & Hload & P0 & P1 & P2 & P3 & _).
    apply Hnull in P0, P1, P2, P3. subst.
    eexists. split; [exact Hload | reflexivity].
  - unfold PageManager.loadAndRenderContent.
    rewrite PageManagerFacts.show_loading_all.
    match goal with |- context [bind _ _ ?p] => set (pg0 := p) end.
    destruct (DataLoaderFacts.loadAllData_spec fetch pg0)
      as (v0 & v1 & v2 & v3 & entries & Hload & P0 & P1 & P2 & P3 & Hentries).
    apply Hnull in P0, P1, P2, P3. subst v0 v1 v2 v3.
    rewrite (bind_ok _ _ _ _ _ Hload).
    rewrite PageManagerFacts.render_outcome_null_data by reflexivity.
    exists
      (mkPage (AppState.mk false null_data)
         (mkDocument (with_markup Utils.loading_markup (features_grid (doc pg)))
            (with_markup Utils.loading_markup (tech_preview (doc pg)))
            (with_markup Utils.loading_markup (use_cases_grid (doc pg)))
            (with_markup UIComponents.service_placeholder
               (service_table_container (doc pg))))
         (console pg ++ entries)), entries.
    split.
    + subst pg0. simpl.
      destruct (service_table_container (doc pg)); reflexivity.
    + simpl. auto 10.
Qed.

Lemma all_rejected_success_branch_witness :
  (exists pg1,
     DataLoader.loadAllData reject_all page_at_load = (Ok true, pg1) /\
     AppState.data (app pg1) = null_data) /\
  (exists pg' entries,
     PageManager.loadAndRenderContent reject_all page_at_load = (Ok tt, pg') /\
     features_grid (doc pg') = Some Utils.loading_markup /\
     tech_preview (doc pg') = Some Utils.loading_markup /\
     use_cases_grid (doc pg') = Some Utils.loading_markup /\
     service_table_container (doc pg')
       = Some UIComponents.service_placeholder /\
     console pg' = entries /\
     Forall is_console_error entries).
Proof.
  apply (all_rejected_success_branch reject_all page_at_load).
  intros path. exists NetworkError. reflexivity.
Defined.

(** * Further properties *)

(** ** Rendering *)

Lemma record_tech_card (v : JSValue) :
  is_record v = true -> exists card, UIComponents.renderTechCard v = Ok card.
Proof.
  intros H. unfold UIComponents.renderTechCard.
  destruct (record_member_text v "icon" H) as [a ->].
  destruct (record_member_text v "title" H) as [b ->].
  destruct (record_member_text v "description" H) as [c ->].
  simpl. eexists. reflexivity.
Qed.



Lemma to_text_array (items : list JSValue) :
  to_text (JArr items) = join_text items.
Proof.
  induction items as [|x rest IH]; [reflexivity|].
  destruct rest as [|y rest']; [reflexivity|].
  simpl in *. rewrite IH. reflexivity.
Qed.

(** Interpolation throws nothing but a [TypeError]. *)
Lemma to_text_type_error (v : JSValue) (e : JSError) :
  to_text v = Throw e -> e = TypeError.
Proof.
  revert e. induction v using JSValue_nested_ind; intros e;
    try (simpl; discriminate).
  - destruct b; discriminate.
  - rewrite to_text_array.
    induction H as [|x rest Hx _ IH]; [discriminate|].
    simpl.
    assert (Hhead : forall e', (if nullish x then Ok EmptyString else to_text x)
                               = Throw e' -> e' = TypeError).
    { destruct (nullish x); [discriminate | exact Hx]. }
    destruct (if nullish x then Ok EmptyString else to_text x) as [a|e'];
      simpl.
    + destruct rest as [|y rest']; [discriminate|].
      destruct (join_text (y :: rest')) as [b|e'']; simpl; [discriminate|].
      intros Heq. injection Heq as <-. apply IH. reflexivity.
    + intros Heq. injection Heq as <-. apply Hhead. reflexivity.
  - simpl. destruct (assoc "toString" props); [|discriminate].
    intros Heq. injection Heq as <-. reflexivity.
Qed.

Lemma member_text_type_error (v : JSValue) (k : string) (e : JSError) :
  member_text v k = Throw e -> e = TypeError.
Proof.
  unfold member_text. destruct (get_member v k) as [x|e'] eqn:Hget; simpl.
  - apply to_text_type_error.
  - intros Heq. injection Heq as <-.
    destruct v; simpl in Hget; try discriminate; try congruence.
    destruct (assoc k props); discriminate.
Qed.

Lemma traverse_type_error {A B} (f : A -> Result B) (l : list A) (e : JSError) :
  (forall x e', f x = Throw e' -> e' = TypeError) ->
  traverse f l = Throw e -> e = TypeError.
Proof.
  intros Hf. induction l as [|x rest IH]; simpl; [discriminate|].
  destruct (f x) as [y|e'] eqn:Hx; simpl.
  - destruct (traverse f rest) as [ys|e'']; simpl; [discriminate|].
    intros Heq. injection Heq as <-. apply IH. reflexivity.
  - intros Heq. injection Heq as <-. exact (Hf x e' Hx).
Qed.

Ltac card_type_error :=
  repeat
    match goal with
    | |- (let? _ := member_text ?v ?k in _) = Throw _ -> _ =>
        let H := fresh "H" in
        destruct (member_text v k) eqn:H; simpl;
        [|let Heq := fresh "Heq" in
          intros Heq; injection Heq as <-;
          exact (member_text_type_error _ _ _ H)]
    end;
  try discriminate.

Lemma renderFeatureCard_type_error (v : JSValue) (e : JSError) :
  UIComponents.renderFeatureCard v = Throw e -> e = TypeError.
Proof. unfold UIComponents.renderFeatureCard. card_type_error. Qed.

Lemma renderTechCard_type_error (v : JSValue) (e : JSError) :
  UIComponents.renderTechCard v = Throw e -> e = TypeError.
Proof. unfold UIComponents.renderTechCard. card_type_error. Qed.

Lemma renderUseCaseCard_type_error (v : JSValue) (e : JSError) :
  UIComponents.renderUseCaseCard v = Throw e -> e = TypeError.
Proof. unfold UIComponents.renderUseCaseCard. card_type_error. Qed.

Lemma renderRow_type_error (v : JSValue) (e : JSError) :
  UIComponents.renderRow v = Throw e -> e = TypeError.
Proof. unfold UIComponents.renderRow. card_type_error. Qed.

Lemma array_receiver_type_error (v : JSValue) (e : JSError) :
  array_receiver v = Throw e -> e = TypeError.
Proof. destruct v; simpl; congruence. Qed.

Lemma renderServiceTable_type_error (v : JSValue) (e : JSError) :
  UIComponents.renderServiceTable v = Throw e -> e = TypeError.
Proof.
  destruct (UIComponentsFacts.renderServiceTable_cases v)
    as [[_ H]|[(d & _ & _ & _ & H)|(d & _ & _ & _ & H)]]; rewrite H;
    try discriminate.
  destruct (array_receiver d) as [items|e'] eqn:Hd; simpl.
  - destruct (traverse UIComponents.renderRow items) as [rows|e'] eqn:Hrows;
      simpl; [discriminate|].
    intros Heq. injection Heq as <-.
    exact (traverse_type_error _ _ _ renderRow_type_error Hrows).
  - intros Heq. injection Heq as <-. exact (array_receiver_type_error _ _ Hd).
Qed.

Lemma truthy_member_value (v : JSValue) (k : string) (x : JSValue) :
  get_member v k = Ok x -> truthy x = true -> truthy v = true.
Proof.
  destruct v; simpl; try discriminate; try reflexivity;
    intros Heq; injection Heq as <-; discriminate.
Qed.

Module RenderSteps.
Import PageManager.

Ltac card_step_tac card_error :=
  let Hp := fresh "Hp" in
  let x := fresh "x" in
  let Hx := fresh "Hx" in
  let Hitems := fresh "Hitems" in
  let Hcards := fresh "Hcards" in
  match goal with
  | |- context [truthy ?p] =>
      destruct (truthy p) eqn:Hp; [|left; left; reflexivity];
      unfold bind, lift;
      match goal with
      | |- context [get_member p ?k] =>
          destruct (truthy_get_member p k Hp) as [x Hx]; rewrite Hx
      end
  end;
  destruct (truthy x); [|left; left; reflexivity];
  destruct (array_receiver x) eqn:Hitems; simpl;
  [|left; right; rewrite (array_receiver_type_error _ _ Hitems); reflexivity];
  match goal with
  | |- context [traverse ?f ?l] =>
      destruct (traverse f l) eqn:Hcards; simpl;
      [right; eexists _, _; split; reflexivity
      |left; right;
       rewrite (traverse_type_error _ _ _ card_error Hcards); reflexivity]
  end.

Lemma renderFeatures_step : card_step FeaturesGrid renderFeatures.
Proof.
  intros [[loading [f t u s]] [[cf|] ct cu cs] out];
    unfold renderFeatures; simpl; [|left; left; reflexivity].
  card_step_tac renderFeatureCard_type_error.
Qed.

Lemma renderTechnologyPreview_step : card_step TechPreview renderTechnologyPreview.
Proof.
  intros [[loading [f t u s]] [cf [ct|] cu cs] out];
    unfold renderTechnologyPreview; simpl; [|left; left; reflexivity].
  card_step_tac renderTechCard_type_error.
Qed.

Lemma renderUseCases_step : card_step UseCasesGrid renderUseCases.
Proof.
  intros [[loading [f t u s]] [cf ct [cu|] cs] out];
    unfold renderUseCases; simpl; [|left; left; reflexivity].
  card_step_tac renderUseCaseCard_type_error.
Qed.

Lemma renderServiceModel_step : card_step ServiceTableContainer renderServiceModel.
Proof.
  intros [[loading [f t u s]] [cf ct cu [cs|]] out];
    unfold renderServiceModel; simpl; [|left; left; reflexivity].
  unfold bind, lift.
  destruct (UIComponents.renderServiceTable s) as [markup|e] eqn:Htable.
  - right. eexists _, _. split; reflexivity.
  - left. right. rewrite (renderServiceTable_type_error _ _ Htable). reflexivity.
Qed.

Lemma markup_only_refl (pg : Page) : markup_only pg pg.
Proof. repeat split. Qed.

Lemma markup_only_trans (pg pg' pg'' : Page) :
  markup_only pg pg' -> markup_only pg' pg'' -> markup_only pg pg''.
Proof.
  intros (A1 & C1 & E1 & E2 & E3 & E4) (A2 & C2 & F1 & F2 & F3 & F4).
  repeat split; congruence.
Qed.

Lemma card_step_markup_only (c : Container) (m : M unit) (pg : Page) r pg' :
  card_step c m -> m pg = (r, pg') ->
  markup_only pg pg' /\ (r = Ok tt \/ r = Throw TypeError).
Proof.
  intros Hstep Hrun.
  destruct (Hstep pg) as [[H|H]|(old & markup & Hold & H)];
    rewrite H in Hrun; injection Hrun as <- <-.
  - split; [apply markup_only_refl | left; reflexivity].
  - split; [apply markup_only_refl | right; reflexivity].
  - split; [|left; reflexivity].
    destruct pg as [state [cf ct cu cs] out].
    destruct c; simpl in Hold; subst; repeat split.
Qed.

Lemma then_markup_only (m k : M unit) (pg : Page) r pg' :
  (forall p r1 p1, m p = (r1, p1) ->
                   markup_only p p1 /\ (r1 = Ok tt \/ r1 = Throw TypeError)) ->
  (forall p r1 p1, k p = (r1, p1) ->
                   markup_only p p1 /\ (r1 = Ok tt \/ r1 = Throw TypeError)) ->
  (m ;; k) pg = (r, pg') ->
  markup_only pg pg' /\ (r = Ok tt \/ r = Throw TypeError).
Proof.
  intros Hm Hk. unfold bind.
  destruct (m pg) as [[[]|e] p1] eqn:Hrun.
  - intros Hrest. destruct (Hm _ _ _ Hrun) as [H1 _].
    destruct (Hk _ _ _ Hrest) as [H2 Hr].
    split; [exact (markup_only_trans _ _ _ H1 H2) | exact Hr].
  - intros Heq. injection Heq as <- <-.
    destruct (Hm _ _ _ Hrun) as [H1 [Hr|Hr]]; [discriminate Hr|].
    split; [exact H1 | right; exact Hr].
Qed.

Lemma render_outcome_markup_only (pg : Page) r pg' :
  render_outcome true pg = (r, pg') ->
  markup_only pg pg' /\ (r = Ok tt \/ r = Throw TypeError).
Proof.
  unfold render_outcome.
  apply then_markup_only;
    [intros p r1 p1; apply (card_step_markup_only _ _ _ _ _ renderFeatures_step)|].
  intros p r1 p1.
  apply then_markup_only;
    [intros q r2 q1;
     apply (card_step_markup_only _ _ _ _ _ renderTechnologyPreview_step)|].
  intros q r2 q1.
  apply then_markup_only;
    [intros q' r3 q3;
     apply (card_step_markup_only _ _ _ _ _ renderUseCases_step)|].
  intros q' r3 q3.
  apply (card_step_markup_only _ _ _ _ _ renderServiceModel_step).
Qed.

End RenderSteps.

(** ** Loading, exactly *)

Module LoadExact.
Import DataLoader.

Section Fetching.

Variable fetch : Fetch.

Lemma loadAllData_exact (pg : Page) :
  loadAllData fetch pg
    = (Ok true,
       mkPage (AppState.mk false (loaded_data fetch)) (doc pg)
         (console pg ++ error_lines fetch (settled_paths fetch))).
Proof.
  unfold loadAllData.
  rewrite (bind_ok _ _ _ _ _ (LoadSteps.loadAllData_issue_exact fetch pg)).
  erewrite DataLoaderFacts.loadAllData_resume_fulfilled by reflexivity.
  reflexivity.
Qed.

Lemma error_lines_length (paths : list string) :
  length (error_lines fetch paths) = length (filter (fails fetch) paths).
Proof.
  induction paths as [|path rest IH]; [reflexivity|].
  change (path :: rest) with ([path] ++ rest)%list.
  rewrite LoadSteps.error_lines_app, length_app, IH. unfold fails at 2.
  unfold error_lines. simpl.
  destruct (resource_failure fetch path); reflexivity.
Qed.

Lemma filter_Permutation {A} (f : A -> bool) (l l' : list A) :
  Permutation l l' -> Permutation (filter f l) (filter f l').
Proof.
  induction 1 as [|x l l' _ IH|x y l|l l' l'' _ IH1 _ IH2]; simpl.
  - constructor.
  - destruct (f x); [constructor|]; exact IH.
  - destruct (f x), (f y); try apply Permutation_refl.
    apply perm_swap.
  - exact (Permutation_trans IH1 IH2).
Qed.

Lemma settled_failures :
  length (error_lines fetch (settled_paths fetch))
  = length (filter (fails fetch) data_paths).
Proof.
  rewrite error_lines_length.
  apply Permutation_length, filter_Permutation,
    LoadSteps.settled_paths_Permutation.
Qed.

Lemma settled_without_failure :
  Forall (fun path => fails fetch path = false) data_paths ->
  error_lines fetch (settled_paths fetch) = [].
Proof.
  intros Hall. apply length_zero_iff_nil. rewrite settled_failures.
  induction Hall as [|path rest Hpath _ IH]; [reflexivity|].
  simpl. rewrite Hpath. exact IH.
Qed.

End Fetching.

End LoadExact.

(** ** Malformed payloads *)

(** X2.  A member that is truthy and not an array stops the section with a
    [TypeError] and the page as it was: [features], [technologies] and
    [scenarios] in the card sections, [deliveryItems] in the table.  For
    the features section, which comes first, the three later sections are
    then not rendered either. *)
Theorem truthy_non_array_member_throws (pg : Page) (x : JSValue) :
  truthy x = true -> is_array x = false ->
  (present (features_grid (doc pg)) = true ->
   get_member (features_payload pg) "features" = Ok x ->
   PageManager.renderFeatures pg = (Throw TypeError, pg) /\
   PageManager.render_outcome true pg = (Throw TypeError, pg)) /\
  (present (tech_preview (doc pg)) = true ->
   get_member (techAdvantages_payload pg) "technologies" = Ok x ->
   PageManager.renderTechnologyPreview pg = (Throw TypeError, pg)) /\
  (present (use_cases_grid (doc pg)) = true ->
   get_member (useCases_payload pg) "scenarios" = Ok x ->
   PageManager.renderUseCases pg = (Throw TypeError, pg)) /\
  (present (service_table_container (doc pg)) = true ->
   get_member (serviceModel_payload pg) "deliveryItems" = Ok x ->
   PageManager.renderServiceModel pg = (Throw TypeError, pg)).
Proof.
  intros Htruthy Harray.
  assert (Hreceiver : array_receiver x = Throw TypeError).
  { destruct x; try reflexivity; discriminate. }
  unfold features_payload, techAdvantages_payload, useCases_payload,
    serviceModel_payload.
  destruct pg as [[loading [f t u s]] [cf ct cu cs] out]. simpl.
  split; [|split; [|split]].
  - intros Hc Hx. destruct cf as [shown|]; [|discriminate].
    assert (Hstep : PageManager.renderFeatures
                      (mkPage (AppState.mk loading (AppState.mkData f t u s))
                         (mkDocument (Some shown) ct cu cs) out)
                    = (Throw TypeError,
                       mkPage (AppState.mk loading (AppState.mkData f t u s))
                         (mkDocument (Some shown) ct cu cs) out)).
    { unfold PageManager.renderFeatures. simpl.
      rewrite (truthy_member_value _ _ _ Hx Htruthy). unfold bind, lift.
      rewrite Hx, Htruthy, Hreceiver. reflexivity. }
    split; [exact Hstep|].
    unfold PageManager.render_outcome, bind at 1. rewrite Hstep. reflexivity.
  - intros Hc Hx. destruct ct; [|discriminate].
    unfold PageManager.renderTechnologyPreview. simpl.
    rewrite (truthy_member_value _ _ _ Hx Htruthy). unfold bind, lift.
    rewrite Hx, Htruthy, Hreceiver. reflexivity.
  - intros Hc Hx. destruct cu; [|discriminate].
    unfold PageManager.renderUseCases. simpl.
    rewrite (truthy_member_value _ _ _ Hx Htruthy). unfold bind, lift.
    rewrite Hx, Htruthy, Hreceiver. reflexivity.
  - intros Hc Hx. destruct cs; [|discriminate].
    unfold PageManager.renderServiceModel, UIComponents.renderServiceTable.
    simpl. unfold bind, lift.
    rewrite (truthy_member_value _ _ _ Hx Htruthy), Hx. simpl.
    rewrite Htruthy, Hreceiver. reflexivity.
Qed.

Lemma truthy_non_array_member_throws_witness :
  PageManager.renderFeatures page_with_text_features
    = (Throw TypeError, page_with_text_features) /\
  PageManager.render_outcome true page_with_text_features
    = (Throw TypeError, page_with_text_features).
Proof.
  apply (proj1 (truthy_non_array_member_throws page_with_text_features
                  (JStr "abc") eq_refl eq_refl)); reflexivity.
Defined.




(** ** Load cycles *)

(** X4.  A load cycle replaces the whole application state: after
    [loadAllData] the flag is down and the four keys hold what the four
    resources gave, whatever the state was before, and the document is
    untouched.  Two cycles against the same server end in the same
    state. *)
Theorem loadAllData_replaces_state (fetch : Fetch) (pg pg2 : Page) :
  exists pg' pg2',
    DataLoader.loadAllData fetch pg = (Ok true, pg') /\
    DataLoader.loadAllData fetch pg2 = (Ok true, pg2') /\
    app pg' = AppState.mk false (loaded_data fetch) /\
    app pg2' = app pg' /\
    doc pg' = doc pg /\ doc pg2' = doc pg2.
Proof.
  eexists _, _.
  split; [apply LoadExact.loadAllData_exact|].
  split; [apply LoadExact.loadAllData_exact|].
  repeat split.
Qed.

(** X5.  [loadAllData] writes one console error for each resource that
    failed, in the order in which the loads settle, each naming its path
    and carrying the error caught; a resource that loaded leaves no line
    and the [catch] block of [loadAllData] adds none. *)
Theorem loadAllData_console_lines (fetch : Fetch) (pg : Page) :
  exists pg',
    DataLoader.loadAllData fetch pg = (Ok true, pg') /\
    console pg' = (console pg ++ error_lines fetch (settled_paths fetch))%list /\
    Permutation (settled_paths fetch) data_paths /\
    length (error_lines fetch (settled_paths fetch))
      = length (filter (fails fetch) data_paths) /\
    length (error_lines fetch (settled_paths fetch)) <= 4.
Proof.
  eexists. split; [apply LoadExact.loadAllData_exact|].
  split; [reflexivity|].
  split; [apply LoadSteps.settled_paths_Permutation|].
  split; [apply LoadExact.settled_failures|].
  rewrite LoadExact.settled_failures.
  exact (filter_length_le (fails fetch) data_paths).
Qed.

(** X6.  A response counts as loaded exactly when its status is between
    200 and 299: outside that range the body is not read, the resource is
    [null] and the console line gives the path and the status; inside it
    a body that parses is the resource and nothing is logged. *)
Theorem loadJSON_status_range (fetch : Fetch) (path : string) (r : Response)
        (pg : Page) :
  fetch path = Ok r ->
  ((status r < 200 \/ 299 < status r)%Z ->
   DataLoader.loadJSON fetch path pg
     = (Ok (Ok JNull),
        mkPage (app pg) (doc pg)
          (console pg ++
           [ConsoleError ("Error loading data from " ++ path ++ ":")
              (Error ("Failed to load " ++ path ++ ": "
                        ++ status_text (status r)))]))) /\
  (forall v, (200 <= status r <= 299)%Z -> json r = Ok v ->
             DataLoader.loadJSON fetch path pg = (Ok (Ok v), pg)).
Proof.
  intros Hfetch. rewrite LoadSteps.loadJSON_exact.
  unfold resource_value, error_lines, resource_failure. simpl.
  rewrite Hfetch. unfold response_ok. split.
  - intros Hout.
    assert (Hok : ((200 <=? status r)%Z && (status r <=? 299)%Z) = false).
    { apply andb_false_iff.
      destruct Hout; [left; apply Z.leb_gt | right; apply Z.leb_gt]; lia. }
    rewrite Hok. reflexivity.
  - intros v [Hlow Hhigh] Hjson.
    apply Z.leb_le in Hlow, Hhigh. rewrite Hlow, Hhigh, Hjson. simpl.
    rewrite app_nil_r. destruct pg. reflexivity.
Qed.

Lemma loadJSON_status_range_witness :
  DataLoader.loadJSON features_not_found "data/product-features.json"
    page_at_load
  = (Ok (Ok JNull),
     mkPage (app page_at_load) (doc page_at_load)
       [ConsoleError "Error loading data from data/product-features.json:"
          (Error "Failed to load data/product-features.json: 404")]) /\
  DataLoader.loadJSON features_not_found "data/use-cases.json" page_at_load
  = (Ok (Ok (JObj [])), page_at_load).
Proof.
  split.
  - apply (proj1 (loadJSON_status_range features_not_found
                    "data/product-features.json"
                    (mkResponse 404 (Ok (JObj []))) page_at_load eq_refl)).
    right. simpl. lia.
  - apply (proj2 (loadJSON_status_range features_not_found
                    "data/use-cases.json"
                    (mkResponse 200 (Ok (JObj []))) page_at_load eq_refl)).
    + simpl. lia.
    + reflexivity.
Defined.

(** One run of [loadAndRenderContent], whatever the server does. *)
Lemma loadAndRenderContent_run (fetch : Fetch) (pg : Page) :
  exists r pg',
    PageManager.loadAndRenderContent fetch pg = (r, pg') /\
    (r = Ok tt \/ r = Throw TypeError) /\
    app pg' = AppState.mk false (loaded_data fetch) /\
    console pg' = (console pg ++ error_lines fetch (settled_paths fetch))%list.
Proof.
  unfold PageManager.loadAndRenderContent.
  rewrite PageManagerFacts.show_loading_all.
  rewrite (bind_ok _ _ _ _ _ (LoadExact.loadAllData_exact fetch _)).
  match goal with
  | |- context [PageManager.render_outcome true ?p] =>
      destruct (PageManager.render_outcome true p) as [r pg'] eqn:Hrender
  end.
  destruct (RenderSteps.render_outcome_markup_only _ _ _ Hrender)
    as [(Happ & Hconsole & _) Hr].
  exists r, pg'. split; [reflexivity|]. split; [exact Hr|].
  split; [exact Happ | exact Hconsole].
Qed.

(** X7.  No network, status or parse error gets out of
    [loadAndRenderContent]: it ends normally or with a [TypeError] from
    rendering a malformed payload, and in both cases the load cycle is
    complete, the flag down and the four keys filled. *)
Theorem loadAndRenderContent_errors (fetch : Fetch) (pg : Page) :
  exists r pg',
    PageManager.loadAndRenderContent fetch pg = (r, pg') /\
    (r = Ok tt \/ r = Throw TypeError) /\
    AppState.isLoading (app pg') = false /\
    AppState.data (app pg') = loaded_data fetch.
Proof.
  destruct (loadAndRenderContent_run fetch pg)
    as (r & pg' & Hrun & Hr & Happ & _).
  exists r, pg'. rewrite Happ. repeat split; assumption.
Qed.

(** X8.  Whatever the server does, [loadAndRenderContent] never reaches
    the fallback branch: the console gets the error lines of the failed
    resources, one for each in the order in which the loads settled, and
    nothing else; the render steps write no line and the fallback warning
    is not written. *)
Theorem loadAndRenderContent_never_falls_back (fetch : Fetch) (pg : Page) :
  exists r pg',
    PageManager.loadAndRenderContent fetch pg = (r, pg') /\
    console pg' = (console pg ++ error_lines fetch (settled_paths fetch))%list /\
    Forall is_console_error (error_lines fetch (settled_paths fetch)) /\
    Permutation (settled_paths fetch) data_paths /\
    length (error_lines fetch (settled_paths fetch))
      = length (filter (fails fetch) data_paths).
Proof.
  destruct (loadAndRenderContent_run fetch pg)
    as (r & pg' & Hrun & _ & _ & Hconsole).
  exists r, pg'. split; [exact Hrun|]. split; [exact Hconsole|].
  split; [apply LoadSteps.error_lines_errors|].
  split; [apply LoadSteps.settled_paths_Permutation|].
  apply LoadExact.settled_failures.
Qed.

(** ** What reaches the markup *)

Lemma prefix_refl_app (x rest : string) : String.prefix x (x ++ rest) = true.
Proof.
  induction x as [|c x IH]; simpl; [destruct rest; reflexivity|].
  destruct (ascii_dec c c) as [_|Hne]; [exact IH | contradiction].
Qed.

Lemma prefix_app (x a b : string) :
  String.prefix x a = true -> String.prefix x (a ++ b) = true.
Proof.
  revert a. induction x as [|c x IH]; intros a;
    [intros _; destruct (a ++ b); reflexivity|].
  destruct a as [|c' a]; simpl; [discriminate|].
  destruct (ascii_dec c c'); [apply IH | discriminate].
Qed.

Lemma occurs_of_prefix (x s : string) :
  String.prefix x s = true -> occurs x s = true.
Proof. intros H. destruct s; simpl in *; rewrite H; reflexivity. Qed.

Lemma occurs_head (x rest : string) : occurs x (x ++ rest) = true.
Proof. apply occurs_of_prefix, prefix_refl_app. Qed.

Lemma occurs_self (x : string) : occurs x x = true.
Proof.
  apply occurs_of_prefix.
  induction x as [|c x IH]; simpl; [reflexivity|].
  destruct (ascii_dec c c) as [_|Hne]; [exact IH | contradiction].
Qed.

Lemma occurs_right (x a b : string) :
  occurs x b = true -> occurs x (a ++ b) = true.
Proof.
  intros H. induction a as [|c a IH]; simpl; [exact H|].
  rewrite IH. apply orb_true_r.
Qed.

Lemma occurs_left (x a b : string) :
  occurs x a = true -> occurs x (a ++ b) = true.
Proof.
  revert b. induction a as [|c a IH]; intros b H.
  - apply occurs_of_prefix.
    destruct x; [destruct (EmptyString ++ b); reflexivity | discriminate H].
  - change (occurs x (String c a))
      with (String.prefix x (String c a) || occurs x a) in H.
    change (occurs x (String c a ++ b))
      with (String.prefix x (String c a ++ b) || occurs x (a ++ b)).
    apply orb_true_iff in H as [H|H].
    + rewrite (prefix_app _ _ b H). reflexivity.
    + rewrite (IH b H). apply orb_true_r.
Qed.

Ltac find_occurrence :=
  lazymatch goal with
  | |- occurs ?x ?x = true => apply occurs_self
  | |- occurs ?x (?x ++ _) = true => apply occurs_head
  | |- occurs ?x (_ ++ _) = true =>
      solve [apply occurs_left; find_occurrence
            |apply occurs_right; find_occurrence]
  end.

Module Verbatim.
Import UIComponents.

Lemma feature_card_occurs (icon title description value : string) :
  occurs icon (feature_card icon title description value) = true /\
  occurs title (feature_card icon title description value) = true /\
  occurs description (feature_card icon title description value) = true /\
  occurs value (feature_card icon title description value) = true.
Proof. unfold feature_card, ln. repeat split; find_occurrence. Qed.

Lemma tech_card_occurs (icon title description : string) :
  occurs icon (tech_card icon title description) = true /\
  occurs title (tech_card icon title description) = true /\
  occurs description (tech_card icon title description) = true.
Proof. unfold tech_card, ln. repeat split; find_occurrence. Qed.

Lemma use_case_card_occurs (icon scenario painPoint solution benefit : string) :
  occurs icon (use_case_card icon scenario painPoint solution benefit) = true /\
  occurs scenario (use_case_card icon scenario painPoint solution benefit) = true /\
  occurs painPoint (use_case_card icon scenario painPoint solution benefit) = true /\
  occurs solution (use_case_card icon scenario painPoint solution benefit) = true /\
  occurs benefit (use_case_card icon scenario painPoint solution benefit) = true.
Proof. unfold use_case_card, ln. repeat split; find_occurrence. Qed.

Lemma table_row_occurs (reportType frequency coreContent value : string) :
  occurs reportType (table_row reportType frequency coreContent value) = true /\
  occurs frequency (table_row reportType frequency coreContent value) = true /\
  occurs coreContent (table_row reportType frequency coreContent value) = true /\
  occurs value (table_row reportType frequency coreContent value) = true.
Proof. unfold table_row, ln. repeat split; find_occurrence. Qed.

End Verbatim.

Ltac open_card :=
  repeat
    match goal with
    | |- (let? _ := member_text ?v ?k in _) = Ok _ -> _ =>
        let H := fresh "Hmember" in
        destruct (member_text v k) eqn:H; simpl; [|discriminate]
    end;
  let Heq := fresh "Heq" in
  intros Heq; injection Heq as <-.

Ltac pick_member Hin Htext :=
  simpl in Hin;
  repeat (destruct Hin as [<-|Hin]);
  try contradiction;
  match goal with
  | H : member_text _ _ = Ok _ |- _ =>
      rewrite Htext in H; injection H as <-
  end.

(** X9.  Text members go into the markup as they are, with no escaping:
    when a member that a renderer reads is text, that text occurs in the
    fragment the renderer returns. *)
Theorem text_members_inserted_verbatim (v : JSValue) (k s : string) :
  get_member v k = Ok (JStr s) ->
  (In k feature_members ->
   forall card, UIComponents.renderFeatureCard v = Ok card ->
                occurs s card = true) /\
  (In k tech_members ->
   forall card, UIComponents.renderTechCard v = Ok card ->
                occurs s card = true) /\
  (In k use_case_members ->
   forall card, UIComponents.renderUseCaseCard v = Ok card ->
                occurs s card = true) /\
  (In k row_members ->
   forall row, UIComponents.renderRow v = Ok row -> occurs s row = true).
Proof.
  intros Hget.
  assert (Htext : member_text v k = Ok s).
  { unfold member_text. rewrite Hget. reflexivity. }
  split; [|split; [|split]]; intros Hin fragment.
  - unfold UIComponents.renderFeatureCard. open_card.
    pick_member Hin Htext; apply Verbatim.feature_card_occurs.
  - unfold UIComponents.renderTechCard. open_card.
    pick_member Hin Htext; apply Verbatim.tech_card_occurs.
  - unfold UIComponents.renderUseCaseCard. open_card.
    pick_member Hin Htext; apply Verbatim.use_case_card_occurs.
  - unfold UIComponents.renderRow. open_card.
    pick_member Hin Htext; apply Verbatim.table_row_occurs.
Qed.

Lemma text_members_inserted_verbatim_witness :
  occurs "<b>&amp;</b><script>"
    (UIComponents.feature_card "*" "<b>&amp;</b><script>" "d" "v") = true.
Proof.
  apply (proj1 (text_members_inserted_verbatim feature_with_markup_title
                  "title" "<b>&amp;</b><script>" eq_refl)).
  - right. left. reflexivity.
  - reflexivity.
Defined.

(** X10.  A value that is neither [null] nor [undefined] and has none of
    the members of a feature (a number, a text, an array, an empty
    object) does not stop [renderFeatureCard]: every place of the card
    reads "undefined".  The same holds for the rows of the table. *)
Theorem memberless_value_renders_undefined (v : JSValue) :
  nullish v = false ->
  (forall k, has_member v k = false -> member_text v k = Ok "undefined") /\
  (Forall (fun k => has_member v k = false) feature_members ->
   UIComponents.renderFeatureCard v
     = Ok (UIComponents.feature_card "undefined" "undefined" "undefined"
             "undefined")) /\
  (Forall (fun k => has_member v k = false) row_members ->
   UIComponents.renderRow v
     = Ok (UIComponents.table_row "undefined" "undefined" "undefined"
             "undefined")).
Proof.
  intros Hv.
  assert (Hmissing : forall k, has_member v k = false ->
                               member_text v k = Ok "undefined").
  { intros k. unfold member_text.
    destruct v; simpl in *; try discriminate; try reflexivity.
    destruct (assoc k props); [discriminate | reflexivity]. }
  split; [exact Hmissing|]. split; intros Hall.
  - unfold feature_members in Hall.
    inversion Hall as [|? ? H1 Hall1]; subst.
    inversion Hall1 as [|? ? H2 Hall2]; subst.
    inversion Hall2 as [|? ? H3 Hall3]; subst.
    inversion Hall3 as [|? ? H4 _]; subst.
    unfold UIComponents.renderFeatureCard.
    rewrite (Hmissing _ H1), (Hmissing _ H2), (Hmissing _ H3), (Hmissing _ H4).
    reflexivity.
  - unfold row_members in Hall.
    inversion Hall as [|? ? H1 Hall1]; subst.
    inversion Hall1 as [|? ? H2 Hall2]; subst.
    inversion Hall2 as [|? ? H3 Hall3]; subst.
    inversion Hall3 as [|? ? H4 _]; subst.
    unfold UIComponents.renderRow.
    rewrite (Hmissing _ H1), (Hmissing _ H2), (Hmissing _ H3), (Hmissing _ H4).
    reflexivity.
Qed.

Lemma memberless_value_renders_undefined_witness :
  UIComponents.renderFeatureCard (JArr [JStr "a"])
    = Ok (UIComponents.feature_card "undefined" "undefined" "undefined"
            "undefined") /\
  UIComponents.renderRow (JObj [("title", JStr "t")])
    = Ok (UIComponents.table_row "undefined" "undefined" "undefined"
            "undefined").
Proof.
  split.
  - apply (proj1 (proj2 (memberless_value_renders_undefined
                           (JArr [JStr "a"]) eq_refl))).
    repeat constructor.
  - apply (proj2 (proj2 (memberless_value_renders_undefined
                           (JObj [("title", JStr "t")]) eq_refl))).
    repeat constructor.
Defined.

(** ** Debounce *)

Lemma subsequence_refl {A} (l : list A) : subsequence l l.
Proof. induction l; constructor; assumption. Qed.

Lemma subsequence_app_skip {A} (l1 l2 : list A) (x : A) :
  subsequence l1 l2 -> subsequence l1 (l2 ++ [x]).
Proof.
  induction 1; simpl.
  - apply subsequence_skip, subsequence_nil.
  - apply subsequence_skip. assumption.
  - apply subsequence_take. assumption.
Qed.

Lemma subsequence_app_take {A} (l1 l2 : list A) (x : A) :
  subsequence l1 l2 -> subsequence (l1 ++ [x]) (l2 ++ [x]).
Proof.
  induction 1; simpl.
  - apply subsequence_take, subsequence_nil.
  - apply subsequence_skip. assumption.
  - apply subsequence_take. assumption.
Qed.

Lemma subsequence_length {A} (l1 l2 : list A) :
  subsequence l1 l2 -> length l1 <= length l2.
Proof. induction 1; simpl; lia. Qed.

Module DebounceFacts.
Import Debounce DebounceSpec.

Section Debounced.

Context {A : Type}.
Variable wait : nat.

Lemma without_handle_owned (h : nat) (l : list (nat * (nat * A))) :
  (forall entry, In entry l -> fst entry = h) -> without_handle h l = [].
Proof.
  intros Hall. induction l as [|entry rest IH]; [reflexivity|].
  simpl. rewrite (Hall entry (or_introl eq_refl)), Nat.eqb_refl. simpl.
  apply IH. intros e He. apply Hall. right. exact He.
Qed.

Lemma cleared_empty (s : State A) :
  owns_timers s -> pending (clearTimeout (timeout s) (timers s)) = [].
Proof.
  unfold owns_timers. intros Hown.
  destruct (timeout s) as [h|] eqn:Ht; simpl.
  - apply without_handle_owned. intros entry Hin.
    specialize (Hown entry Hin). congruence.
  - destruct (pending (timers s)) as [|entry rest]; [reflexivity|].
    specialize (Hown entry (or_introl eq_refl)). discriminate.
Qed.

Lemma executedFunction_owned (args : A) (s : State A) :
  owns_timers s ->
  executedFunction wait args s
  = mkState (Some (next_handle (timers s)))
      (mkTimers (now (timers s)) (S (next_handle (timers s)))
         [(next_handle (timers s), (now (timers s) + wait, args))])
      (invoked s).
Proof.
  intros Hown. pose proof (cleared_empty s Hown) as Hcleared.
  unfold executedFunction, setTimeout.
  destruct (timeout s); simpl in *; rewrite Hcleared; reflexivity.
Qed.

Lemma In_without_handle (h : nat) (l : list (nat * (nat * A))) entry :
  In entry (without_handle h l) -> In entry l.
Proof. unfold without_handle. intros H. apply filter_In in H. tauto. Qed.

Lemma find_timer_In (h : nat) (t : Timers A) due args :
  find_timer h t = Some (due, args) -> In (h, (due, args)) (pending t).
Proof.
  unfold find_timer.
  destruct (find _ (pending t)) as [[h' timer]|] eqn:Hfind; [|discriminate].
  intros Heq. injection Heq as ->.
  apply find_some in Hfind as [Hin Hh]. simpl in Hh.
  apply Nat.eqb_eq in Hh. subst h'. exact Hin.
Qed.

Lemma step_owns_timers (s : State A) (ev : Event A) :
  owns_timers s -> owns_timers (step wait s ev).
Proof.
  intros Hown. destruct ev as [args|elapsed|h]; simpl.
  - unfold executedFunction, setTimeout. simpl.
    intros entry Hin. simpl in Hin.
    rewrite (cleared_empty s Hown) in Hin. simpl in Hin.
    destruct Hin as [<-|[]].
    destruct (timeout s); reflexivity.
  - exact Hown.
  - destruct (find_timer h (timers s)) as [[due args]|]; [|exact Hown].
    destruct (due <=? now (timers s))%nat; [|exact Hown].
    unfold later. intros entry Hin. simpl in *.
    apply Hown.
    destruct (timeout s); simpl in Hin;
      repeat apply In_without_handle in Hin; exact Hin.
Qed.

Lemma run_owns_timers (events : list (Event A)) (s : State A) :
  owns_timers s -> owns_timers (run wait events s).
Proof.
  revert s. induction events as [|ev rest IH]; intros s Hown; [exact Hown|].
  simpl. apply IH, step_owns_timers, Hown.
Qed.

Lemma debounce_owns_timers (host : Timers A) :
  pending host = [] -> owns_timers (debounce host).
Proof. intros Hnone entry Hin. simpl in Hin. rewrite Hnone in Hin. destruct Hin. Qed.

Lemma run_app (l1 l2 : list (Event A)) (s : State A) :
  run wait (l1 ++ l2) s = run wait l2 (run wait l1 s).
Proof. unfold run. apply fold_left_app. Qed.

(** No timer due within the time that passes: [func] is not called. *)
Lemma quiet_run (events : list (Event A)) (s : State A) :
  elapsed_in events < wait ->
  (forall entry, In entry (pending (timers s)) ->
                 now (timers s) + elapsed_in events < fst (snd entry)) ->
  invoked (run wait events s) = invoked s.
Proof.
  revert s. induction events as [|ev rest IH]; intros s Hshort Hdue;
    [reflexivity|].
  simpl. destruct ev as [args|elapsed|h]; unfold elapsed_in in *; simpl in *.
  - rewrite IH; [reflexivity | exact Hshort |].
    unfold executedFunction, setTimeout. simpl.
    intros entry Hin. apply in_app_or in Hin as [Hin|[<-|[]]].
    + destruct (timeout s); simpl in *;
        [apply In_without_handle in Hin|]; apply Hdue in Hin; exact Hin.
    + destruct (timeout s); simpl; lia.
  - rewrite IH; [reflexivity | lia |].
    simpl. intros entry Hin. apply Hdue in Hin. lia.
  - destruct (find_timer h (timers s)) as [[due args]|] eqn:Hfind;
      [|apply IH; assumption].
    apply find_timer_In in Hfind. apply Hdue in Hfind. simpl in Hfind.
    destruct (Nat.leb_spec due (now (timers s))); [lia|].
    apply IH; assumption.
Qed.

Lemma step_trailing (s : State A) (ev : Event A) (calls : list A) :
  owns_timers s -> trailing s calls ->
  trailing (step wait s ev) (calls ++ calls_of [ev]).
Proof.
  intros Hown Htrail. destruct ev as [args|elapsed|h]; simpl.
  - right. unfold executedFunction, setTimeout. simpl.
    rewrite (cleared_empty s Hown). simpl.
    eexists _, _, args, calls. split; [reflexivity|]. split; [reflexivity|].
    destruct Htrail as [[_ Hsub]|(h & due & a & earlier & _ & -> & Hsub)].
    + exact Hsub.
    + apply subsequence_app_skip. exact Hsub.
  - rewrite app_nil_r. exact Htrail.
  - rewrite app_nil_r.
    destruct Htrail as [[Hnone Hsub]|(h' & due & a & earlier & Hone & -> & Hsub)].
    + unfold find_timer. rewrite Hnone. simpl. left. split; assumption.
    + unfold find_timer, later. rewrite Hone. simpl.
      destruct (Nat.eqb h' h); simpl.
      * destruct (due <=? now (timers s))%nat.
        -- left. simpl. split.
           ++ destruct (timeout s); reflexivity.
           ++ rewrite map_app. simpl. apply subsequence_app_take. exact Hsub.
        -- right. eexists _, _, _, _. split; [exact Hone|].
           split; [reflexivity | exact Hsub].
      * right. eexists _, _, _, _. split; [exact Hone|].
        split; [reflexivity | exact Hsub].
Qed.

Lemma calls_of_app (l1 l2 : list (Event A)) :
  calls_of (l1 ++ l2) = (calls_of l1 ++ calls_of l2)%list.
Proof. unfold calls_of. apply flat_map_app. Qed.

Lemma run_trailing (events : list (Event A)) (s : State A) (calls : list A) :
  owns_timers s -> trailing s calls ->
  trailing (run wait events s) (calls ++ calls_of events).
Proof.
  revert s calls. induction events as [|ev rest IH]; intros s calls Hown Htrail.
  - simpl. rewrite app_nil_r. exact Htrail.
  - change (calls_of (ev :: rest)) with (calls_of ([ev] ++ rest)%list).
    rewrite calls_of_app, app_assoc.
    change (run wait (ev :: rest) s) with (run wait rest (step wait s ev)).
    apply IH; [apply step_owns_timers, Hown | apply step_trailing; assumption].
Qed.

End Debounced.

End DebounceFacts.

(** X11.  After a call of the debounced function, [func] is not called
    for as long as less than [wait] has passed, whatever else happens in
    that time: further calls, timers the host tries to run. *)
Theorem debounce_quiet_after_call {A : Type} (wait : nat) (host : Timers A)
        (before after : list (Debounce.Event A)) (args : A) :
  pending host = [] ->
  DebounceSpec.elapsed_in after < wait ->
  Debounce.invoked
    (Debounce.run wait (before ++ Debounce.Call args :: after)
       (Debounce.debounce host))
  = Debounce.invoked (Debounce.run wait before (Debounce.debounce host)).
Proof.
  intros Hhost Hshort.
  rewrite DebounceFacts.run_app.
  pose proof (DebounceFacts.run_owns_timers wait before _
                (DebounceFacts.debounce_owns_timers host Hhost)) as Hown.
  set (s := Debounce.run wait before (Debounce.debounce host)) in *.
  change (Debounce.run wait (Debounce.Call args :: after) s)
    with (Debounce.run wait after (Debounce.executedFunction wait args s)).
  rewrite DebounceFacts.quiet_run; [reflexivity | exact Hshort |].
  unfold Debounce.executedFunction, setTimeout. simpl.
  rewrite (DebounceFacts.cleared_empty s Hown). simpl.
  intros entry [<-|[]]. simpl.
  destruct (Debounce.timeout s); simpl; lia.
Qed.

Lemma debounce_quiet_after_call_witness :
  Debounce.invoked
    (Debounce.run 250
       ([Debounce.Call "a"; Debounce.Advance 300; Debounce.Fire 1]
        ++ Debounce.Call "b"
           :: [Debounce.Advance 100; Debounce.Fire 2; Debounce.Call "c";
               Debounce.Advance 100; Debounce.Fire 3])
       (Debounce.debounce idle_host))
  = Debounce.invoked
      (Debounce.run 250
         [Debounce.Call "a"; Debounce.Advance 300; Debounce.Fire 1]
         (Debounce.debounce idle_host)).
Proof.
  apply (debounce_quiet_after_call 250 idle_host).
  - reflexivity.
  - unfold DebounceSpec.elapsed_in. simpl. lia.
Defined.

(** X12.  The last call wins: once [wait] has passed after a call with no
    call in between, the timer of that call runs [func] with the
    arguments of that call, once; the host has no timer of the debounced
    function left and running the same timer again does nothing. *)
Theorem debounce_trailing_call {A : Type} (wait : nat) (host : Timers A)
        (before : list (Debounce.Event A)) (args : A) (elapsed handle' : nat) :
  pending host = [] ->
  wait <= elapsed ->
  exists handle,
    Debounce.timeout
      (Debounce.run wait (before ++ [Debounce.Call args])
         (Debounce.debounce host)) = Some handle /\
    Debounce.invoked
      (Debounce.run wait
         (before ++ [Debounce.Call args; Debounce.Advance elapsed;
                     Debounce.Fire handle])
         (Debounce.debounce host))
    = (Debounce.invoked (Debounce.run wait before (Debounce.debounce host))
       ++ [(now (Debounce.timers
                   (Debounce.run wait before (Debounce.debounce host)))
            + elapsed, args)])%list /\
    pending
      (Debounce.timers
         (Debounce.run wait
            (before ++ [Debounce.Call args; Debounce.Advance elapsed;
                        Debounce.Fire handle])
            (Debounce.debounce host))) = [] /\
    Debounce.run wait
      (before ++ [Debounce.Call args; Debounce.Advance elapsed;
                  Debounce.Fire handle; Debounce.Fire handle'])
      (Debounce.debounce host)
    = Debounce.run wait
        (before ++ [Debounce.Call args; Debounce.Advance elapsed;
                    Debounce.Fire handle])
        (Debounce.debounce host).
Proof.
  intros Hhost Hlong.
  pose proof (DebounceFacts.run_owns_timers wait before _
                (DebounceFacts.debounce_owns_timers host Hhost)) as Hown.
  set (s := Debounce.run wait before (Debounce.debounce host)) in *.
  exists (next_handle (Debounce.timers s)).
  rewrite !DebounceFacts.run_app. fold s.
  unfold Debounce.run. cbn [fold_left Debounce.step].
  rewrite (DebounceFacts.executedFunction_owned wait args s Hown).
  unfold find_timer. simpl. rewrite Nat.eqb_refl. simpl.
  destruct (Nat.leb_spec (now (Debounce.timers s) + wait)
              (now (Debounce.timers s) + elapsed)) as [_|Hlt]; [|lia].
  unfold Debounce.later. simpl. repeat split.
Qed.

Lemma debounce_trailing_call_witness :
  exists handle,
    Debounce.timeout
      (Debounce.run 250 ([Debounce.Call "a"] ++ [Debounce.Call "b"])
         (Debounce.debounce idle_host)) = Some handle /\
    Debounce.invoked
      (Debounce.run 250
         ([Debounce.Call "a"]
          ++ [Debounce.Call "b"; Debounce.Advance 250; Debounce.Fire handle])
         (Debounce.debounce idle_host))
    = ([] ++ [(0 + 250, "b")])%list /\
    pending
      (Debounce.timers
         (Debounce.run 250
            ([Debounce.Call "a"]
             ++ [Debounce.Call "b"; Debounce.Advance 250;
                 Debounce.Fire handle])
            (Debounce.debounce idle_host))) = [] /\
    Debounce.run 250
      ([Debounce.Call "a"]
       ++ [Debounce.Call "b"; Debounce.Advance 250; Debounce.Fire handle;
           Debounce.Fire 1])
      (Debounce.debounce idle_host)
    = Debounce.run 250
        ([Debounce.Call "a"]
         ++ [Debounce.Call "b"; Debounce.Advance 250; Debounce.Fire handle])
        (Debounce.debounce idle_host).
Proof.
  apply (debounce_trailing_call 250 idle_host [Debounce.Call "a"] "b" 250 1).
  - reflexivity.
  - lia.
Defined.

(** X13.  [func] only ever receives arguments the debounced function was
    called with, each call at most once and in the order of the calls: it
    is called no more often than the debounced function. *)
Theorem debounce_invocations_follow_calls {A : Type} (wait : nat)
        (host : Timers A) (events : list (Debounce.Event A)) :
  pending host = [] ->
  subsequence
    (map snd
       (Debounce.invoked (Debounce.run wait events (Debounce.debounce host))))
    (DebounceSpec.calls_of events) /\
  length (Debounce.invoked (Debounce.run wait events (Debounce.debounce host)))
    <= length (DebounceSpec.calls_of events).
Proof.
  intros Hhost.
  assert (Hsub : subsequence
                   (map snd
                      (Debounce.invoked
                         (Debounce.run wait events (Debounce.debounce host))))
                   (DebounceSpec.calls_of events)).
  { pose proof (DebounceFacts.run_trailing wait events (Debounce.debounce host)
                  [] (DebounceFacts.debounce_owns_timers host Hhost)) as Htrail.
    simpl in Htrail.
    destruct Htrail as [[_ Hsub]|(h & due & a & earlier & _ & -> & Hsub)].
    - left. split; [exact Hhost | constructor].
    - exact Hsub.
    - apply subsequence_app_skip. exact Hsub. }
  split; [exact Hsub|].
  apply subsequence_length in Hsub. rewrite length_map in Hsub. exact Hsub.
Qed.

Lemma debounce_invocations_follow_calls_witness :
  subsequence
    (map snd
       (Debounce.invoked
          (Debounce.run 250
             [Debounce.Call "a"; Debounce.Advance 300; Debounce.Fire 1;
              Debounce.Call "b"; Debounce.Call "c"; Debounce.Advance 250;
              Debounce.Fire 2; Debounce.Fire 3]
             (Debounce.debounce idle_host))))
    ["a"; "b"; "c"] /\
  length
    (Debounce.invoked
       (Debounce.run 250
          [Debounce.Call "a"; Debounce.Advance 300; Debounce.Fire 1;
           Debounce.Call "b"; Debounce.Call "c"; Debounce.Advance 250;
           Debounce.Fire 2; Debounce.Fire 3]
          (Debounce.debounce idle_host)))
  <= 3.
Proof.
  apply (debounce_invocations_follow_calls 250 idle_host
           [Debounce.Call "a"; Debounce.Advance 300; Debounce.Fire 1;
            Debounce.Call "b"; Debounce.Call "c"; Debounce.Advance 250;
            Debounce.Fire 2; Debounce.Fire 3]).
  reflexivity.
Defined.

(** ** Class lists *)

Lemma contains_app (t : string) (cl cl' : ClassList) :
  contains t (cl ++ cl')%list = contains t cl || contains t cl'.
Proof. unfold contains. apply existsb_app. Qed.

Lemma contains_add_token (t u : string) (cl : ClassList) :
  contains t (add_token cl u) = contains t cl || String.eqb t u.
Proof.
  unfold add_token. destruct (contains u cl) eqn:Hu.
  - destruct (String.eqb_spec t u) as [->|_];
      [rewrite Hu; reflexivity | rewrite orb_false_r; reflexivity].
  - rewrite contains_app. simpl. rewrite orb_false_r. reflexivity.
Qed.

Lemma contains_remove_token (t u : string) (cl : ClassList) :
  contains t (remove_token cl u) = contains t cl && negb (String.eqb t u).
Proof.
  unfold contains, remove_token. induction cl as [|c cl IH]; [reflexivity|].
  simpl. destruct (String.eqb_spec c u) as [->|Hcu]; simpl.
  - rewrite IH. destruct (String.eqb_spec t u); simpl;
      [rewrite andb_false_r | rewrite andb_true_r]; reflexivity.
  - rewrite IH. destruct (String.eqb_spec t c) as [->|Htc]; simpl;
      [|reflexivity].
    destruct (String.eqb_spec c u); [contradiction | reflexivity].
Qed.

Lemma contains_toggle (t u : string) (cl : ClassList) :
  contains t (class_toggle u cl)
  = if String.eqb t u then negb (contains u cl) else contains t cl.
Proof.
  unfold class_toggle. destruct (contains u cl) eqn:Hu.
  - rewrite contains_remove_token.
    destruct (String.eqb_spec t u) as [->|_]; simpl;
      [apply andb_false_r | apply andb_true_r].
  - rewrite contains_app. simpl. rewrite orb_false_r.
    destruct (String.eqb_spec t u) as [->|_]; simpl;
      [rewrite Hu; reflexivity | apply orb_false_r].
Qed.

(** ** Navigation *)

(** X14.  The menu button toggles: after [n] clicks the mobile menu is
    hidden exactly when it was hidden before and [n] is even, or was shown
    and [n] is odd; its other classes, the anchors and the scroll position
    are as before.  Without the button or without the menu a click does
    nothing. *)
Theorem mobile_menu_parity (d : NavDom) (n : nat) :
  (forall cl,
     mobile_menu_btn d = true -> mobile_menu d = Some cl ->
     exists cl',
       NavigationSpec.clicks n d
         = mkNavDom true (Some cl') (links d) (element_ids d) (scrolled_to d) /\
       contains "hidden" cl' = xorb (contains "hidden" cl) (Nat.odd n) /\
       forall t, t <> "hidden" -> contains t cl' = contains t cl) /\
  (mobile_menu_btn d = false \/ mobile_menu d = None ->
   NavigationSpec.clicks n d = d).
Proof.
  split.
  - intros cl Hbtn Hmenu. induction n as [|n (cl' & Hrun & Hhidden & Hrest)].
    + exists cl. split; [|split].
      * destruct d; simpl in *; subst; reflexivity.
      * simpl. rewrite xorb_false_r. reflexivity.
      * reflexivity.
    + exists (class_toggle "hidden" cl'). split; [|split].
      * simpl. rewrite Hrun. reflexivity.
      * rewrite contains_toggle. simpl. rewrite Hhidden.
        rewrite Nat.odd_succ, <- Nat.negb_odd.
        destruct (contains "hidden" cl), (Nat.odd n); reflexivity.
      * intros t Ht. rewrite contains_toggle.
        destruct (String.eqb_spec t "hidden"); [contradiction|].
        apply Hrest, Ht.
  - intros Hmissing. induction n as [|n IH]; [reflexivity|].
    simpl. rewrite IH. unfold Navigation.mobile_menu_click.
    destruct (mobile_menu d); [|reflexivity].
    destruct Hmissing as [->|H]; [reflexivity | discriminate H].
Qed.

Lemma mobile_menu_parity_witness :
  exists cl',
    NavigationSpec.clicks 3 NavigationSpec.sample_dom
      = mkNavDom true (Some cl') NavigationSpec.sample_links
          ["home"; "features"; "contact"; "mobile-menu"; "mobile-menu-btn"]
          [] /\
    contains "hidden" cl' = false /\
    forall t, t <> "hidden" ->
              contains t cl' = contains t ["md:hidden"; "hidden"].
Proof.
  apply (proj1 (mobile_menu_parity NavigationSpec.sample_dom 3)
           ["md:hidden"; "hidden"]); reflexivity.
Defined.

(** X15.  A click on an anchor [#id] scrolls to the element with that id
    when the page has one and nowhere otherwise (so nowhere for a bare
    [#]), and leaves the mobile menu hidden, its other classes and the
    anchors as they were. *)
Theorem link_click_scrolls_and_hides (d : NavDom) (link : Link) (id : string) :
  href link = "#" ++ id ->
  scrolled_to (Navigation.link_click link d)
    = (scrolled_to d ++ (if has_element id d then [id] else []))%list /\
  links (Navigation.link_click link d) = links d /\
  (mobile_menu d = None -> mobile_menu (Navigation.link_click link d) = None) /\
  (forall cl,
     mobile_menu d = Some cl ->
     exists cl',
       mobile_menu (Navigation.link_click link d) = Some cl' /\
       contains "hidden" cl' = true /\
       forall t, t <> "hidden" -> contains t cl' = contains t cl).
Proof.
  intros Hhref. unfold Navigation.link_click. rewrite Hhref. simpl.
  unfold UtilsScroll.smoothScrollTo.
  destruct d as [btn menu ls ids scrolled]. simpl.
  destruct (has_element id (mkNavDom btn menu ls ids scrolled)); simpl;
    destruct menu as [cl|]; simpl;
    try (destruct (contains "hidden" cl) eqn:Hhidden; simpl);
    rewrite ?app_nil_r;
    (split; [reflexivity|]); (split; [reflexivity|]);
    (split; [try reflexivity; discriminate|]);
    intros cl0 Heq; try discriminate; injection Heq as <-;
    eexists; (split; [reflexivity|]); split;
    try exact Hhidden; try reflexivity;
    try (unfold class_add; simpl; rewrite contains_add_token;
         apply orb_true_r);
    intros t Ht; unfold class_add; simpl; rewrite contains_add_token;
    destruct (String.eqb_spec t "hidden"); try contradiction;
    apply orb_false_r.
Qed.

Lemma link_click_scrolls_and_hides_witness :
  scrolled_to
    (Navigation.link_click (mkLink "#features" true ["px-3"])
       (NavigationSpec.clicks 1 NavigationSpec.sample_dom))
  = ["features"] /\
  exists cl',
    mobile_menu
      (Navigation.link_click (mkLink "#features" true ["px-3"])
         (NavigationSpec.clicks 1 NavigationSpec.sample_dom)) = Some cl' /\
    contains "hidden" cl' = true.
Proof.
  destruct (link_click_scrolls_and_hides
              (NavigationSpec.clicks 1 NavigationSpec.sample_dom)
              (mkLink "#features" true ["px-3"]) "features" eq_refl)
    as (Hscroll & _ & _ & Hmenu).
  split; [exact Hscroll|].
  destruct (Hmenu ["md:hidden"] eq_refl) as (cl' & Hcl' & Hhidden & _).
  exists cl'. split; assumption.
Defined.

Module ActiveFacts.
Import Navigation NavigationSpec ActiveSpec.

Ltac class_tokens :=
  unfold is_active, is_inactive, class_add, class_remove; simpl;
  rewrite ?contains_add_token, ?contains_remove_token; simpl;
  repeat match goal with
         | |- context [contains ?t ?cl] => destruct (contains t cl)
         end;
  reflexivity.

Lemma state_token_false (t : string) :
  state_token t = false ->
  String.eqb t "text-white" = false /\ String.eqb t "bg-white/10" = false /\
  String.eqb t "text-gray-300" = false.
Proof.
  unfold state_token. simpl. rewrite orb_false_r.
  intros H. apply orb_false_iff in H as [H1 H]. apply orb_false_iff in H as [H2 H3].
  auto.
Qed.

Lemma deactivate_inactive (a : Link) :
  in_nav a = true -> is_inactive (link_classes (deactivate a)) = true.
Proof. intros H. unfold deactivate. rewrite H. simpl. class_tokens. Qed.

Lemma activate_active (a : Link) :
  is_active (link_classes (activate a)) = true.
Proof. unfold activate. simpl. class_tokens. Qed.

Lemma inactive_not_active (cl : ClassList) :
  is_inactive cl = true -> is_active cl = false.
Proof.
  unfold is_active, is_inactive.
  destruct (contains "text-gray-300" cl), (contains "text-white" cl),
    (contains "bg-white/10" cl); simpl; congruence.
Qed.

Lemma active_not_inactive (cl : ClassList) :
  is_active cl = true -> is_inactive cl = false.
Proof.
  unfold is_active, is_inactive.
  destruct (contains "text-gray-300" cl), (contains "text-white" cl),
    (contains "bg-white/10" cl); simpl; congruence.
Qed.

Lemma same_link_refl (a : Link) : same_link a a.
Proof. repeat split. Qed.

Lemma same_link_trans (a b c : Link) :
  same_link a b -> same_link b c -> same_link a c.
Proof.
  intros (H1 & N1 & F1 & T1) (H2 & N2 & F2 & T2). repeat split.
  - congruence.
  - congruence.
  - intros Ha. rewrite <- (F1 Ha). apply F2. congruence.
  - intros t Ht. rewrite (T2 t Ht). apply T1, Ht.
Qed.

Lemma deactivate_same (a : Link) : same_link a (deactivate a).
Proof.
  unfold deactivate. destruct (in_nav a) eqn:Hnav; [|apply same_link_refl].
  repeat split; simpl; try congruence.
  intros t Ht. destruct (state_token_false t Ht) as (E1 & E2 & E3).
  unfold class_add, class_remove. simpl.
  rewrite contains_add_token, !contains_remove_token, E1, E2, E3. simpl.
  rewrite orb_false_r, !andb_true_r. reflexivity.
Qed.

Lemma activate_same (a : Link) : in_nav a = true -> same_link a (activate a).
Proof.
  intros Hnav. unfold activate. repeat split; simpl; try congruence.
  intros t Ht. destruct (state_token_false t Ht) as (E1 & E2 & E3).
  unfold class_add, class_remove. simpl.
  rewrite !contains_add_token, contains_remove_token, E1, E2, E3. simpl.
  rewrite !orb_false_r, andb_true_r. reflexivity.
Qed.

Lemma Forall2_same_refl (l : list Link) : Forall2 same_link l l.
Proof. induction l; constructor; [apply same_link_refl | assumption]. Qed.

Lemma Forall2_same_trans (l1 l2 l3 : list Link) :
  Forall2 same_link l1 l2 -> Forall2 same_link l2 l3 -> Forall2 same_link l1 l3.
Proof.
  intros H12. revert l3. induction H12 as [|a b l1 l2 Hab _ IH]; intros l3 H23.
  - inversion H23. constructor.
  - inversion H23 as [|? c ? l3' Hbc Hrest]; subst.
    constructor; [exact (same_link_trans _ _ _ Hab Hbc) | apply IH, Hrest].
Qed.

Lemma map_deactivate_same (l : list Link) : Forall2 same_link l (map deactivate l).
Proof. induction l; constructor; [apply deactivate_same | assumption]. Qed.

Lemma first_match_nth (h : string) (l : list Link) (i : nat) :
  first_match h l = Some i ->
  exists a, nth_error l i = Some a /\ in_nav a = true /\ href a = h.
Proof.
  revert i. induction l as [|x l IH]; intros i; simpl; [discriminate|].
  destruct (in_nav x && String.eqb (href x) h) eqn:Hx.
  - intros Heq. injection Heq as <-. exists x.
    apply andb_true_iff in Hx as [Hnav Hhref].
    apply String.eqb_eq in Hhref. auto.
  - destruct (first_match h l) as [j|]; simpl; [|discriminate].
    intros Heq. injection Heq as <-. apply (IH j). reflexivity.
Qed.

Lemma activate_at_same (i : nat) (l : list Link) :
  (forall a, nth_error l i = Some a -> in_nav a = true) ->
  Forall2 same_link l (activate_at i l).
Proof.
  revert i. induction l as [|x l IH]; intros i Hnav.
  { destruct i; constructor. }
  destruct i as [|i]; simpl.
  - constructor; [|apply Forall2_same_refl].
    apply activate_same, Hnav. reflexivity.
  - constructor; [apply same_link_refl|]. apply IH. exact Hnav.
Qed.

Lemma nth_error_activate_at (i : nat) (l : list Link) (j : nat) :
  nth_error (activate_at i l) j
  = if Nat.eqb i j then option_map activate (nth_error l j)
    else nth_error l j.
Proof.
  revert i j. induction l as [|x l IH]; intros i j.
  - destruct i, j; simpl; try reflexivity; destruct (Nat.eqb _ _); reflexivity.
  - destruct i as [|i], j as [|j]; simpl; try reflexivity. apply IH.
Qed.

Lemma first_match_same (h : string) (l l' : list Link) :
  Forall2 same_link l l' -> first_match h l' = first_match h l.
Proof.
  induction 1 as [|a b l l' (Hh & Hn & _) _ IH]; [reflexivity|].
  simpl. rewrite Hh, Hn, IH. reflexivity.
Qed.

Lemma shown_same (h : string) (l : list Link) : Forall2 same_link l (shown h l).
Proof.
  unfold shown.
  destruct (first_match h l) as [i|] eqn:Hfirst; [|apply map_deactivate_same].
  eapply Forall2_same_trans; [apply map_deactivate_same|].
  apply activate_at_same. intros a Ha.
  rewrite <- (first_match_same h _ _ (map_deactivate_same l)) in Hfirst.
  destruct (first_match_nth _ _ _ Hfirst) as (a' & Ha' & Hnav & _).
  congruence.
Qed.

Lemma nth_error_shown (h : string) (l : list Link) (i : nat) :
  nth_error (shown h l) i
  = if is_first_match h l i
    then option_map (fun a => activate (deactivate a)) (nth_error l i)
    else option_map deactivate (nth_error l i).
Proof.
  unfold shown, is_first_match.
  destruct (first_match h l) as [j|].
  - rewrite nth_error_activate_at, nth_error_map.
    destruct (Nat.eqb j i); [|reflexivity].
    destruct (nth_error l i); reflexivity.
  - apply nth_error_map.
Qed.

(** An entry the browser answers as for a plain id. *)
Lemma observe_entry_answered (l0 : list Link) (d : NavDom) (entry : Entry) :
  Forall2 same_link l0 (links d) ->
  (isIntersecting entry = true ->
   active_link entry
   = Ok (found_of (first_match ("#" ++ target_id entry) l0))) ->
  observe_entry d entry
  = (Ok tt,
     if isIntersecting entry
     then mkNavDom (mobile_menu_btn d) (mobile_menu d)
            (shown ("#" ++ target_id entry) (links d))
            (element_ids d) (scrolled_to d)
     else d).
Proof.
  intros Hsame Hanswer. unfold observe_entry.
  destruct (isIntersecting entry); [|reflexivity].
  rewrite (Hanswer eq_refl).
  rewrite <- (first_match_same _ _ _ Hsame). unfold shown, found_of.
  destruct (first_match ("#" ++ target_id entry) (links d)); reflexivity.
Qed.

Lemma observe_entries_answered (l0 : list Link) (entries : list Entry)
      (d : NavDom) :
  Forall2 same_link l0 (links d) ->
  Forall (fun entry =>
            isIntersecting entry = true ->
            active_link entry
            = Ok (found_of (first_match ("#" ++ target_id entry) l0)))
    entries ->
  exists ls,
    observe_entries entries d
    = (Ok tt,
       mkNavDom (mobile_menu_btn d) (mobile_menu d) ls (element_ids d)
         (scrolled_to d)) /\
    Forall2 same_link l0 ls.
Proof.
  intros Hsame Hanswers. revert d Hsame.
  induction Hanswers as [|entry rest Hentry _ IH]; intros d Hsame.
  - exists (links d). split; [destruct d; reflexivity | exact Hsame].
  - simpl. rewrite (observe_entry_answered l0 d entry Hsame Hentry).
    destruct (isIntersecting entry).
    + destruct (IH (mkNavDom (mobile_menu_btn d) (mobile_menu d)
                      (shown ("#" ++ target_id entry) (links d))
                      (element_ids d) (scrolled_to d))) as (ls & Hrun & Hls).
      { simpl. eapply Forall2_same_trans; [exact Hsame | apply shown_same]. }
      exists ls. split; [exact Hrun | exact Hls].
    + apply IH, Hsame.
Qed.

Lemma quiet_entries (entries : list Entry) (d : NavDom) :
  quiet entries -> observe_entries entries d = (Ok tt, d).
Proof.
  induction 1 as [|entry rest Hentry _ IH]; [reflexivity|].
  simpl. unfold observe_entry. rewrite Hentry. exact IH.
Qed.

Lemma observe_entries_app (l1 l2 : list Entry) (d : NavDom) :
  observe_entries (l1 ++ l2) d
  = match observe_entries l1 d with
    | (Ok _, d') => observe_entries l2 d'
    | (Throw e, d') => (Throw e, d')
    end.
Proof.
  revert d. induction l1 as [|entry rest IH]; intros d; [reflexivity|].
  simpl. destruct (observe_entry d entry) as [[[]|e] d']; [apply IH|reflexivity].
Qed.

Lemma answers_of_plain (d : NavDom) (entries : list Entry) :
  Forall (browser_answers d) entries -> plain_ids entries ->
  Forall (fun entry =>
            isIntersecting entry = true ->
            active_link entry
            = Ok (found_of (first_match ("#" ++ target_id entry) (links d))))
    entries.
Proof.
  intros Hanswers Hplain. induction Hanswers as [|entry rest Hentry _ IH].
  - constructor.
  - inversion Hplain as [|? ? Hp Hrest]; subst.
    constructor; [|exact (IH Hrest)].
    intros Hint. apply Hentry, Hp, Hint.
Qed.

End ActiveFacts.

Lemma Forall2_nth_error {A B} (R : A -> B -> Prop) (l : list A) (l' : list B)
      (i : nat) (a : A) :
  Forall2 R l l' -> nth_error l i = Some a ->
  exists b, nth_error l' i = Some b /\ R a b.
Proof.
  intros H. revert i. induction H as [|x y l l' Hxy _ IH]; intros i.
  - destruct i; discriminate.
  - destruct i as [|i]; simpl.
    + intros Heq. injection Heq as <-. exists y. split; [reflexivity | exact Hxy].
    + apply IH.
Qed.

(** X16.  Take a batch of observer entries in which the sections that
    intersect have ids of plain text (no quote, backslash, line break or
    null character), so that the browser reads the selector as it is
    written.  After the batch the navigation shows the section of the last
    entry that intersects: among the anchors in a [nav], the first one
    whose [href] is [#] and the id of that section is active and every
    other one is inactive, whatever their classes were before; [href],
    place and the other classes of every anchor are untouched, and so are
    the anchors outside a [nav] and the mobile menu.  A batch in which
    nothing intersects changes nothing.  When the browser refuses the
    selector of an entry that intersects, the callback ends with that
    error and every anchor in a [nav] is left inactive. *)
Theorem active_navigation_last_entry (d : NavDom) (before after : list Entry)
        (entry : Entry) :
  Forall (NavigationSpec.browser_answers d) (before ++ [entry]) ->
  NavigationSpec.plain_ids before ->
  NavigationSpec.quiet after ->
  (isIntersecting entry = false -> NavigationSpec.quiet before ->
   Navigation.observe_entries (before ++ entry :: after) d = (Ok tt, d)) /\
  (isIntersecting entry = true -> plain (target_id entry) = true ->
   exists d',
     Navigation.observe_entries (before ++ entry :: after) d = (Ok tt, d') /\
     mobile_menu d' = mobile_menu d /\
     forall i link,
       nth_error (links d) i = Some link ->
       exists link',
         nth_error (links d') i = Some link' /\
         ActiveSpec.same_link link link' /\
         (in_nav link = true ->
          NavigationSpec.is_active (link_classes link')
            = ActiveSpec.is_first_match ("#" ++ target_id entry) (links d) i /\
          NavigationSpec.is_inactive (link_classes link')
            = negb (ActiveSpec.is_first_match ("#" ++ target_id entry)
                      (links d) i))) /\
  (forall error,
     isIntersecting entry = true -> active_link entry = Throw error ->
     exists d',
       Navigation.observe_entries (before ++ entry :: after) d
         = (Throw error, d') /\
       forall i link,
         nth_error (links d) i = Some link ->
         exists link',
           nth_error (links d') i = Some link' /\
           ActiveSpec.same_link link link' /\
           (in_nav link = true ->
            NavigationSpec.is_inactive (link_classes link') = true)).
Proof.
  intros Hanswers Hplain Hafter.
  apply Forall_app in Hanswers as [Hbefore Hentry].
  inversion Hentry as [|? ? Hanswer _]; subst. clear Hentry.
  pose proof (ActiveFacts.answers_of_plain d before Hbefore Hplain) as Hok.
  destruct (ActiveFacts.observe_entries_answered (links d) before d
              (ActiveFacts.Forall2_same_refl _) Hok) as (ls & Hrun & Hsame).
  split; [|split].
  - intros Hquiet Hbeforequiet. apply ActiveFacts.quiet_entries.
    apply Forall_app. split; [exact Hbeforequiet|].
    constructor; [exact Hquiet | exact Hafter].
  - intros Hint Hid.
    pose (h := "#" ++ target_id entry).
    eexists. split.
    + rewrite ActiveFacts.observe_entries_app, Hrun.
      cbn [Navigation.observe_entries].
      rewrite (ActiveFacts.observe_entry_answered (links d)
                 (mkNavDom (mobile_menu_btn d) (mobile_menu d) ls
                    (element_ids d) (scrolled_to d))
                 entry Hsame (fun _ => Hanswer Hid)).
      rewrite Hint. apply ActiveFacts.quiet_entries, Hafter.
    + split; [reflexivity|]. cbn [links]. fold h.
      intros i link Hlink.
      destruct (Forall2_nth_error _ _ _ _ _ Hsame Hlink)
        as (link1 & Hlink1 & Hsame1).
      rewrite ActiveFacts.nth_error_shown, Hlink1.
      assert (Hfirst : ActiveSpec.is_first_match h ls i
                       = ActiveSpec.is_first_match h (links d) i).
      { unfold ActiveSpec.is_first_match.
        rewrite (ActiveFacts.first_match_same h _ _ Hsame). reflexivity. }
      rewrite Hfirst.
      pose proof (ActiveFacts.deactivate_same link1) as Hsame2.
      destruct (ActiveSpec.is_first_match h (links d) i) eqn:Hmatch; simpl.
      * assert (Hnav1 : in_nav link1 = true).
        { unfold ActiveSpec.is_first_match in Hfirst.
          destruct (NavigationSpec.first_match h ls) as [j|] eqn:Hj;
            [|discriminate].
          apply Nat.eqb_eq in Hfirst. subst j.
          destruct (ActiveFacts.first_match_nth _ _ _ Hj) as (a & Ha & Hnav & _).
          congruence. }
        eexists. split; [reflexivity|]. split.
        -- eapply ActiveFacts.same_link_trans; [exact Hsame1|].
           eapply ActiveFacts.same_link_trans; [exact Hsame2|].
           apply ActiveFacts.activate_same.
           destruct Hsame2 as (_ & Hn & _). congruence.
        -- intros _.
           pose proof (ActiveFacts.activate_active (Navigation.deactivate link1))
             as Hactive.
           rewrite Hactive, (ActiveFacts.active_not_inactive _ Hactive).
           split; reflexivity.
      * eexists. split; [reflexivity|]. split.
        -- eapply ActiveFacts.same_link_trans; [exact Hsame1 | exact Hsame2].
        -- intros Hnav.
           assert (Hnav1 : in_nav link1 = true).
           { destruct Hsame1 as (_ & Hn & _). congruence. }
           pose proof (ActiveFacts.deactivate_inactive link1 Hnav1) as Hinactive.
           rewrite Hinactive, (ActiveFacts.inactive_not_active _ Hinactive).
           split; reflexivity.
  - intros error Hint Herror.
    eexists. split.
    + rewrite ActiveFacts.observe_entries_app, Hrun.
      cbn [Navigation.observe_entries]. unfold Navigation.observe_entry.
      rewrite Hint, Herror. reflexivity.
    + cbn [links]. intros i link Hlink.
      destruct (Forall2_nth_error _ _ _ _ _ Hsame Hlink)
        as (link1 & Hlink1 & Hsame1).
      rewrite nth_error_map, Hlink1. simpl.
      eexists. split; [reflexivity|]. split.
      * eapply ActiveFacts.same_link_trans;
          [exact Hsame1 | apply ActiveFacts.deactivate_same].
      * intros Hnav. apply ActiveFacts.deactivate_inactive.
        destruct Hsame1 as (_ & Hn & _). congruence.
Qed.

Lemma active_navigation_last_entry_witness :
  (exists d',
     Navigation.observe_entries
       ([mkEntry true "home" (Ok (AnchorAt 0))]
        ++ mkEntry true "features" (Ok (AnchorAt 2))
           :: [mkEntry false "contact" (Ok (AnchorAt 4))])
       NavigationSpec.sample_dom = (Ok tt, d') /\
     mobile_menu d' = Some ["md:hidden"; "hidden"] /\
     forall i link,
       nth_error NavigationSpec.sample_links i = Some link ->
       exists link',
         nth_error (links d') i = Some link' /\
         ActiveSpec.same_link link link' /\
         (in_nav link = true ->
          NavigationSpec.is_active (link_classes link')
            = ActiveSpec.is_first_match "#features"
                NavigationSpec.sample_links i /\
          NavigationSpec.is_inactive (link_classes link')
            = negb (ActiveSpec.is_first_match "#features"
                      NavigationSpec.sample_links i))) /\
  (exists d',
     Navigation.observe_entries
       ([mkEntry true "home" (Ok (AnchorAt 0))]
        ++ mkEntry true ("a" ++ newline ++ "b") (Throw SyntaxError)
           :: [mkEntry false "contact" (Ok (AnchorAt 4))])
       NavigationSpec.sample_dom = (Throw SyntaxError, d') /\
     forall i link,
       nth_error NavigationSpec.sample_links i = Some link ->
       exists link',
         nth_error (links d') i = Some link' /\
         ActiveSpec.same_link link link' /\
         (in_nav link = true ->
          NavigationSpec.is_inactive (link_classes link') = true)).
Proof.
  assert (Hquiet : NavigationSpec.quiet
                     [mkEntry false "contact" (Ok (AnchorAt 4))])
    by (repeat constructor).
  assert (Hplain : NavigationSpec.plain_ids
                     [mkEntry true "home" (Ok (AnchorAt 0))])
    by (repeat constructor).
  split.
  - apply (proj1 (proj2 (active_navigation_last_entry
                           NavigationSpec.sample_dom
                           [mkEntry true "home" (Ok (AnchorAt 0))]
                           [mkEntry false "contact" (Ok (AnchorAt 4))]
                           (mkEntry true "features" (Ok (AnchorAt 2)))
                           ltac:(repeat constructor) Hplain Hquiet)));
      reflexivity.
  - apply (proj2 (proj2 (active_navigation_last_entry
                           NavigationSpec.sample_dom
                           [mkEntry true "home" (Ok (AnchorAt 0))]
                           [mkEntry false "contact" (Ok (AnchorAt 4))]
                           (mkEntry true ("a" ++ newline ++ "b")
                              (Throw SyntaxError))
                           ltac:(repeat constructor; discriminate)
                           Hplain Hquiet)));
      reflexivity.
Defined.

(** ** Initialisation *)

Lemma add_anchor_listeners (ls : list Link) (l : Listeners) :
  fold_left NavigationSetup.add_anchor_listener ls l
  = mkListeners (menu_click l) (anchor_click l + length ls)
      (section_observer l) (resize l) (fade_observer l).
Proof.
  revert l. induction ls as [|link ls IH]; intros l; simpl.
  - rewrite Nat.add_0_r. destruct l; reflexivity.
  - rewrite IH. simpl. rewrite Nat.add_succ_r. reflexivity.
Qed.

Lemma navigation_init_spec (s : Site) :
  NavigationSetup.init s
  = (Ok tt,
     mkSite (page s) (nav s)
       (mkListeners
          (menu_click (listeners s) + InitSpec.menu_listeners (nav s))
          (anchor_click (listeners s) + length (links (nav s)))
          (S (section_observer (listeners s)))
          (resize (listeners s)) (fade_observer (listeners s)))).
Proof.
  unfold NavigationSetup.init, site_bind, NavigationSetup.setupMobileMenu,
    NavigationSetup.setupSmoothScrolling,
    NavigationSetup.setupActiveNavigation, register, InitSpec.menu_listeners.
  destruct s as [pg [btn menu ls ids scrolled] [m a o r f]].
  cbn [mobile_menu mobile_menu_btn nav listeners page links].
  destruct menu as [cl|]; destruct btn;
    cbn [mobile_menu mobile_menu_btn nav listeners page links];
    rewrite add_anchor_listeners; simpl;
    rewrite ?Nat.add_0_r, ?Nat.add_1_r; reflexivity.
Qed.

(** X17.  [PageManager.init] registers the navigation first, whatever the
    load brings: a click listener on the menu button when button and menu
    are there, one click listener on every anchor of the page, and the
    observer of the sections.  It ends as [loadAndRenderContent] ends:
    normally, with the resize listener and the scroll animations registered
    and the completion line last on the console, after the greeting and the
    error lines of the loads in the order in which the loads settle; or
    with the [TypeError] of a malformed payload, and then neither of the
    two is registered and the completion line is not written. *)
Theorem init_outcome (fetch : Fetch) (s : Site) :
  exists r s',
    PageInit.init fetch s = (r, s') /\
    fst (PageManager.loadAndRenderContent fetch (InitSpec.page_after_greeting s))
      = r /\
    nav s' = nav s /\
    menu_click (listeners s')
      = menu_click (listeners s) + InitSpec.menu_listeners (nav s) /\
    anchor_click (listeners s')
      = anchor_click (listeners s) + length (links (nav s)) /\
    section_observer (listeners s') = S (section_observer (listeners s)) /\
    Permutation (settled_paths fetch) data_paths /\
    ((r = Ok tt /\
      resize (listeners s') = S (resize (listeners s)) /\
      fade_observer (listeners s') = S (fade_observer (listeners s)) /\
      console (page s')
        = (console (page s) ++ [InitSpec.init_line]
           ++ error_lines fetch (settled_paths fetch)
           ++ [InitSpec.complete_line])%list) \/
     (r = Throw TypeError /\
      resize (listeners s') = resize (listeners s) /\
      fade_observer (listeners s') = fade_observer (listeners s) /\
      console (page s')
        = (console (page s) ++ [InitSpec.init_line]
           ++ error_lines fetch (settled_paths fetch))%list)).
Proof.
  destruct (loadAndRenderContent_run fetch (InitSpec.page_after_greeting s))
    as (r & pg' & Hrun & Hr & _ & Hconsole).
  unfold PageInit.init, site_bind at 1, on_page at 1, log.
  cbn [page nav listeners fst snd].
  unfold site_bind at 1. rewrite navigation_init_spec.
  unfold site_bind at 1, on_page at 1. cbn [page nav listeners fst snd].
  change (mkPage (app (page s)) (doc (page s))
            (console (page s)
             ++ [ConsoleLog "Initializing ZhiyanTrack website..."]))
    with (InitSpec.page_after_greeting s).
  rewrite Hrun.
  destruct Hr as [-> | ->].
  - eexists _, _. split; [reflexivity|].
    cbn [page nav listeners fst snd menu_click anchor_click section_observer
         resize fade_observer console].
    repeat (split; [reflexivity|]).
    split; [apply LoadSteps.settled_paths_Permutation|].
    left. repeat (split; [reflexivity|]).
    rewrite Hconsole. unfold InitSpec.page_after_greeting, InitSpec.complete_line.
    cbn [console]. rewrite <- !app_assoc. reflexivity.
  - eexists _, _. split; [reflexivity|].
    cbn [page nav listeners fst snd menu_click anchor_click section_observer
         resize fade_observer console].
    repeat (split; [reflexivity|]).
    split; [apply LoadSteps.settled_paths_Permutation|].
    right. repeat (split; [reflexivity|]).
    rewrite Hconsole. unfold InitSpec.page_after_greeting.
    cbn [console]. rewrite <- !app_assoc. reflexivity.
Qed.

(** ** A whole load *)

Module FullPage.
Import PageManager.

Lemma renderFeatures_exact (pg : Page) items old cards :
  get_member (features_payload pg) "features" = Ok (JArr items) ->
  features_grid (doc pg) = Some old ->
  traverse UIComponents.renderFeatureCard (firstn 6 items) = Ok cards ->
  renderFeatures pg
  = (Ok tt,
     mkPage (app pg)
       (mkDocument (Some (join_empty cards)) (tech_preview (doc pg))
          (use_cases_grid (doc pg)) (service_table_container (doc pg)))
       (console pg)).
Proof.
  intros Hitems Hcontainer Hcards.
  pose proof (get_member_array_truthy _ _ _ Hitems) as Htruthy.
  unfold features_payload in *.
  destruct pg as [[loading [f t u s]] [cf ct cu cs] out]. simpl in *.
  subst cf. unfold renderFeatures. simpl.
  rewrite Htruthy. unfold bind, lift. rewrite Hitems. simpl.
  rewrite Hcards. reflexivity.
Qed.

Lemma renderTechnologyPreview_exact (pg : Page) items old cards :
  get_member (techAdvantages_payload pg) "technologies" = Ok (JArr items) ->
  tech_preview (doc pg) = Some old ->
  traverse UIComponents.renderTechCard items = Ok cards ->
  renderTechnologyPreview pg
  = (Ok tt,
     mkPage (app pg)
       (mkDocument (features_grid (doc pg)) (Some (join_empty cards))
          (use_cases_grid (doc pg)) (service_table_container (doc pg)))
       (console pg)).
Proof.
  intros Hitems Hcontainer Hcards.
  pose proof (get_member_array_truthy _ _ _ Hitems) as Htruthy.
  unfold techAdvantages_payload in *.
  destruct pg as [[loading [f t u s]] [cf ct cu cs] out]. simpl in *.
  subst ct. unfold renderTechnologyPreview. simpl.
  rewrite Htruthy. unfold bind, lift. rewrite Hitems. simpl.
  rewrite Hcards. reflexivity.
Qed.

Lemma renderUseCases_exact (pg : Page) items old cards :
  get_member (useCases_payload pg) "scenarios" = Ok (JArr items) ->
  use_cases_grid (doc pg) = Some old ->
  traverse UIComponents.renderUseCaseCard (firstn 3 items) = Ok cards ->
  renderUseCases pg
  = (Ok tt,
     mkPage (app pg)
       (mkDocument (features_grid (doc pg)) (tech_preview (doc pg))
          (Some (join_empty cards)) (service_table_container (doc pg)))
       (console pg)).
Proof.
  intros Hitems Hcontainer Hcards.
  pose proof (get_member_array_truthy _ _ _ Hitems) as Htruthy.
  unfold useCases_payload in *.
  destruct pg as [[loading [f t u s]] [cf ct cu cs] out]. simpl in *.
  subst cu. unfold renderUseCases. simpl.
  rewrite Htruthy. unfold bind, lift. rewrite Hitems. simpl.
  rewrite Hcards. reflexivity.
Qed.

Lemma renderServiceModel_exact (pg : Page) items old rows :
  get_member (serviceModel_payload pg) "deliveryItems" = Ok (JArr items) ->
  service_table_container (doc pg) = Some old ->
  traverse UIComponents.renderRow items = Ok rows ->
  renderServiceModel pg
  = (Ok tt,
     mkPage (app pg)
       (mkDocument (features_grid (doc pg)) (tech_preview (doc pg))
          (use_cases_grid (doc pg))
          (Some (UIComponents.service_table (join_empty rows))))
       (console pg)).
Proof.
  intros Hitems Hcontainer Hrows.
  pose proof (get_member_array_truthy _ _ _ Hitems) as Htruthy.
  unfold serviceModel_payload in *.
  destruct pg as [[loading [f t u s]] [cf ct cu cs] out]. simpl in *.
  subst cs. unfold renderServiceModel, UIComponents.renderServiceTable.
  simpl. unfold bind, lift. rewrite Htruthy, Hitems. simpl.
  rewrite Hrows. reflexivity.
Qed.

End FullPage.

Module MarkupFacts.

Lemma tag_marks_app (a b : string) :
  tag_marks (a ++ b) = tag_marks a + tag_marks b.
Proof.
  induction a as [|c a IH]; simpl; [reflexivity|].
  rewrite IH. apply Nat.add_assoc.
Qed.

Lemma tag_marks_join (l : list string) :
  tag_marks (join_empty l) = list_sum (map tag_marks l).
Proof.
  unfold join_empty. induction l as [|x rest IH]; [reflexivity|].
  destruct rest as [|y rest].
  - simpl. rewrite Nat.add_0_r. reflexivity.
  - change (String.concat EmptyString (x :: y :: rest))
      with (x ++ EmptyString ++ String.concat EmptyString (y :: rest)).
    rewrite !tag_marks_app, IH. reflexivity.
Qed.

Lemma member_text_free (v : JSValue) (k s : string) :
  markup_free v = true -> member_text v k = Ok s -> tag_marks s = 0.
Proof.
  destruct v as [| | | | | |props]; simpl; try discriminate.
  intros Hfree. unfold member_text. simpl.
  destruct (assoc k props) as [x|] eqn:Hk; simpl.
  - pose proof (assoc_forallb
                  (fun x => match to_text x with
                            | Ok s => Nat.eqb (tag_marks s) 0
                            | Throw _ => false
                            end) k props x Hfree Hk) as Hx.
    simpl in Hx. intros Htext. rewrite Htext in Hx.
    apply Nat.eqb_eq. exact Hx.
  - intros Heq. injection Heq as <-. reflexivity.
Qed.

Ltac count_marks :=
  unfold ln, open_tag; rewrite !tag_marks_app; simpl; lia.

Lemma feature_card_marks (a b c d : string) :
  tag_marks (UIComponents.feature_card a b c d)
  = 10 + tag_marks a + tag_marks b + tag_marks c + tag_marks d.
Proof. unfold UIComponents.feature_card. count_marks. Qed.

Lemma tech_card_marks (a b c : string) :
  tag_marks (UIComponents.tech_card a b c)
  = 8 + tag_marks a + tag_marks b + tag_marks c.
Proof. unfold UIComponents.tech_card. count_marks. Qed.

Lemma use_case_card_marks (a b c d e : string) :
  tag_marks (UIComponents.use_case_card a b c d e)
  = 26 + tag_marks a + tag_marks b + tag_marks c + tag_marks d + tag_marks e.
Proof. unfold UIComponents.use_case_card. count_marks. Qed.

Lemma table_row_marks (a b c d : string) :
  tag_marks (UIComponents.table_row a b c d)
  = 10 + tag_marks a + tag_marks b + tag_marks c + tag_marks d.
Proof. unfold UIComponents.table_row. count_marks. Qed.

Lemma service_table_marks (rows : string) :
  tag_marks (UIComponents.service_table rows) = 16 + tag_marks rows.
Proof.
  unfold UIComponents.service_table, UIComponents.table_head,
    UIComponents.table_foot.
  count_marks.
Qed.

Ltac free_member v k :=
  let s := fresh "s" in
  let e := fresh "e" in
  let Hs := fresh "Hs" in
  destruct (member_text v k) as [s|e] eqn:Hs; simpl; [|discriminate];
  apply (member_text_free v k s) in Hs; [|assumption].

Lemma renderFeatureCard_marks (v : JSValue) (card : string) :
  markup_free v = true -> UIComponents.renderFeatureCard v = Ok card ->
  tag_marks card = 10.
Proof.
  intros Hfree. unfold UIComponents.renderFeatureCard.
  free_member v "icon". free_member v "title".
  free_member v "description". free_member v "value".
  intros Heq. injection Heq as <-. rewrite feature_card_marks. lia.
Qed.

Lemma renderTechCard_marks (v : JSValue) (card : string) :
  markup_free v = true -> UIComponents.renderTechCard v = Ok card ->
  tag_marks card = 8.
Proof.
  intros Hfree. unfold UIComponents.renderTechCard.
  free_member v "icon". free_member v "title". free_member v "description".
  intros Heq. injection Heq as <-. rewrite tech_card_marks. lia.
Qed.

Lemma renderUseCaseCard_marks (v : JSValue) (card : string) :
  markup_free v = true -> UIComponents.renderUseCaseCard v = Ok card ->
  tag_marks card = 26.
Proof.
  intros Hfree. unfold UIComponents.renderUseCaseCard.
  free_member v "icon". free_member v "scenario". free_member v "painPoint".
  free_member v "solution". free_member v "benefit".
  intros Heq. injection Heq as <-. rewrite use_case_card_marks. lia.
Qed.

Lemma renderRow_marks (v : JSValue) (row : string) :
  markup_free v = true -> UIComponents.renderRow v = Ok row ->
  tag_marks row = 10.
Proof.
  intros Hfree. unfold UIComponents.renderRow.
  free_member v "reportType". free_member v "frequency".
  free_member v "coreContent". free_member v "value".
  intros Heq. injection Heq as <-. rewrite table_row_marks. lia.
Qed.

Lemma traverse_marks (f : JSValue -> Result string) (n : nat)
      (l : list JSValue) (cards : list string) :
  (forall v card, markup_free v = true -> f v = Ok card -> tag_marks card = n) ->
  Forall (fun v => markup_free v = true) l ->
  traverse f l = Ok cards ->
  tag_marks (join_empty cards) = n * length l.
Proof.
  intros Hf Hfree Hrun. rewrite tag_marks_join.
  apply traverse_Forall2 in Hrun. revert Hfree.
  induction Hrun as [|v card l cards Hv _ IH]; intros Hfree.
  - simpl. lia.
  - inversion Hfree as [|? ? Hfv Hrest]; subst.
    simpl. rewrite (IH Hrest), (Hf v card Hfv Hv). lia.
Qed.

End MarkupFacts.

(** X18.  A load in which the four resources arrive with arrays of
    records under their keys, on a page with the four containers as
    separate elements, and in which no text of a record carries a tag,
    fills the page: the cards of the first six features, a card for every
    technology, the cards of the first three scenarios and the table with
    a row for every delivery item, each in the order of its array.  The
    markup of each container has the tags of the templates and no other:
    ten for a feature card, eight for a technology card, twenty-six for a
    use case card, ten for a row and sixteen for the table around the
    rows; so the records bring no element to the page.  The flag is down,
    the payloads are stored and the console has no new line. *)
Theorem loadAndRenderContent_full_page (fetch : Fetch) (pg : Page)
        (features technologies scenarios deliveryItems : list JSValue) :
  fails fetch "data/product-features.json" = false ->
  fails fetch "data/tech-advantages.json" = false ->
  fails fetch "data/use-cases.json" = false ->
  fails fetch "data/service-model.json" = false ->
  get_member (resource_value fetch "data/product-features.json") "features"
    = Ok (JArr features) ->
  get_member (resource_value fetch "data/tech-advantages.json") "technologies"
    = Ok (JArr technologies) ->
  get_member (resource_value fetch "data/use-cases.json") "scenarios"
    = Ok (JArr scenarios) ->
  get_member (resource_value fetch "data/service-model.json") "deliveryItems"
    = Ok (JArr deliveryItems) ->
  Forall (fun item => is_record item = true)
    (features ++ technologies ++ scenarios ++ deliveryItems) ->
  Forall (fun item => markup_free item = true)
    (features ++ technologies ++ scenarios ++ deliveryItems) ->
  all_containers (doc pg) ->
  exists featureCards techCards useCaseCards rows,
    traverse UIComponents.renderFeatureCard (firstn 6 features)
      = Ok featureCards /\
    traverse UIComponents.renderTechCard technologies = Ok techCards /\
    traverse UIComponents.renderUseCaseCard (firstn 3 scenarios)
      = Ok useCaseCards /\
    traverse UIComponents.renderRow deliveryItems = Ok rows /\
    tag_marks (join_empty featureCards) = 10 * length (firstn 6 features) /\
    tag_marks (join_empty techCards) = 8 * length technologies /\
    tag_marks (join_empty useCaseCards) = 26 * length (firstn 3 scenarios) /\
    tag_marks (UIComponents.service_table (join_empty rows))
      = 16 + 10 * length deliveryItems /\
    PageManager.loadAndRenderContent fetch pg
    = (Ok tt,
       mkPage (AppState.mk false (loaded_data fetch))
         (mkDocument (Some (join_empty featureCards))
            (Some (join_empty techCards)) (Some (join_empty useCaseCards))
            (Some (UIComponents.service_table (join_empty rows))))
         (console pg)).
Proof.
  intros F0 F1 F2 F3 Hfeatures Htech Hscenarios Hitems Hrecords Hfree
    (C0 & C1 & C2 & C3).
  apply Forall_app in Hrecords as [R0 Hrecords].
  apply Forall_app in Hrecords as [R1 Hrecords].
  apply Forall_app in Hrecords as [R2 R3].
  apply Forall_app in Hfree as [P0 Hfree].
  apply Forall_app in Hfree as [P1 Hfree].
  apply Forall_app in Hfree as [P2 P3].
  destruct (traverse_total UIComponents.renderFeatureCard (firstn 6 features))
    as [featureCards Hfc].
  { apply Forall_firstn. eapply Forall_impl; [|exact R0].
    intros item. apply UIComponentsFacts.record_feature_card. }
  destruct (traverse_total UIComponents.renderTechCard technologies)
    as [techCards Htc].
  { eapply Forall_impl; [|exact R1]. intros item. apply record_tech_card. }
  destruct (traverse_total UIComponents.renderUseCaseCard (firstn 3 scenarios))
    as [useCaseCards Huc].
  { apply Forall_firstn. eapply Forall_impl; [|exact R2].
    intros item. apply UIComponentsFacts.record_use_case_card. }
  destruct (traverse_total UIComponents.renderRow deliveryItems) as [rows Hrows].
  { eapply Forall_impl; [|exact R3]. intros item Hitem.
    destruct (UIComponentsFacts.record_row item Hitem)
      as (a & b & c & d & _ & _ & _ & _ & Hrow).
    eexists. exact Hrow. }
  exists featureCards, techCards, useCaseCards, rows.
  repeat (split; [assumption|]).
  split.
  { apply (MarkupFacts.traverse_marks _ _ _ _
             MarkupFacts.renderFeatureCard_marks (Forall_firstn _ _ _ P0) Hfc). }
  split.
  { apply (MarkupFacts.traverse_marks _ _ _ _
             MarkupFacts.renderTechCard_marks P1 Htc). }
  split.
  { apply (MarkupFacts.traverse_marks _ _ _ _
             MarkupFacts.renderUseCaseCard_marks (Forall_firstn _ _ _ P2) Huc). }
  split.
  { rewrite MarkupFacts.service_table_marks.
    rewrite (MarkupFacts.traverse_marks _ _ _ _
               MarkupFacts.renderRow_marks P3 Hrows).
    reflexivity. }
  assert (Hquiet : error_lines fetch (settled_paths fetch) = []).
  { apply LoadExact.settled_without_failure.
    repeat constructor; assumption. }
  unfold PageManager.loadAndRenderContent.
  rewrite PageManagerFacts.show_loading_all.
  rewrite (bind_ok _ _ _ _ _ (LoadExact.loadAllData_exact fetch _)).
  rewrite Hquiet. cbn [console]. rewrite app_nil_r.
  destruct pg as [state [[cf|] [ct|] [cu|] [cs|]] out]; try discriminate.
  unfold PageManager.render_outcome. cbn [doc with_markup].
  erewrite bind_ok;
    [|eapply FullPage.renderFeatures_exact;
      [exact Hfeatures | reflexivity | exact Hfc]].
  erewrite bind_ok;
    [|eapply FullPage.renderTechnologyPreview_exact;
      [exact Htech | reflexivity | exact Htc]].
  erewrite bind_ok;
    [|eapply FullPage.renderUseCases_exact;
      [exact Hscenarios | reflexivity | exact Huc]].
  erewrite FullPage.renderServiceModel_exact;
    [reflexivity | exact Hitems | reflexivity | exact Hrows].
Qed.

Lemma loadAndRenderContent_full_page_witness :
  exists featureCards techCards useCaseCards rows,
    traverse UIComponents.renderFeatureCard (firstn 6 ten_records)
      = Ok featureCards /\
    traverse UIComponents.renderTechCard (map sample_record ["a"; "b"])
      = Ok techCards /\
    traverse UIComponents.renderUseCaseCard (firstn 3 ten_records)
      = Ok useCaseCards /\
    traverse UIComponents.renderRow [sample_item] = Ok rows /\
    tag_marks (join_empty featureCards) = 10 * length (firstn 6 ten_records) /\
    tag_marks (join_empty techCards)
      = 8 * length (map sample_record ["a"; "b"]) /\
    tag_marks (join_empty useCaseCards) = 26 * length (firstn 3 ten_records) /\
    tag_marks (UIComponents.service_table (join_empty rows))
      = 16 + 10 * length [sample_item] /\
    PageManager.loadAndRenderContent (answer_all 200 full_payload) page_at_load
    = (Ok tt,
       mkPage (AppState.mk false (loaded_data (answer_all 200 full_payload)))
         (mkDocument (Some (join_empty featureCards))
            (Some (join_empty techCards)) (Some (join_empty useCaseCards))
            (Some (UIComponents.service_table (join_empty rows))))
         []).
Proof.
  apply (loadAndRenderContent_full_page (answer_all 200 full_payload)
           page_at_load ten_records (map sample_record ["a"; "b"])
           ten_records [sample_item]);
    try reflexivity.
  - repeat constructor.
  - repeat constructor.
  - repeat split.
Defined.
